(** * knative-deployer: the deploy and observe flows of [cmd/main.go]

    A shallow embedding of the Go program: the untyped documents it reads
    and writes, the status interpreter [parseKnativeStatus], the readiness
    poller [waitForReady], configuration loading [LoadEnv], and the two
    flows [runDeploy] and [runObserve].  The repository carries two
    near-identical copies of the program; [Module Main] follows
    [cmd/main.go] and [Module Part000] follows the second copy where the
    two differ. *)

From Stdlib Require Import Ascii.
From stdpp Require Import base strings list gmap pretty.

(** ** Untyped documents ([map[string]any] trees)

    The program handles Kubernetes objects as [unstructured.Unstructured],
    i.e. as trees of [any].  A Go map is kept as an association list that
    is read through [map_index]; the first binding of a key is the one that
    counts.  A [float64] is kept by its [%v] text, the only thing the
    program could ever observe of it. *)

#[warnings="-register-all"]
Inductive value : Type :=
| VNil
| VBool (b : bool)
| VInt (n : Z)
| VFloat (text : string)
| VString (s : string)
| VSlice (l : list value)
| VMap (m : list (string * value)).

Abbreviation object := (list (string * value)).

(** [v, ok := m[k]] *)
Fixpoint map_lookup (k : string) (m : object) : option value :=
  match m with
  | [] => None
  | (k', v) :: rest => if decide (k' = k) then Some v else map_lookup k rest
  end.

(** [m[k]], which is [nil] for an absent key. *)
Definition map_index (m : object) (k : string) : value :=
  default VNil (map_lookup k m).

(** [m[k] = v] *)
Fixpoint map_store (k : string) (v : value) (m : object) : object :=
  match m with
  | [] => [(k, v)]
  | (k', v') :: rest =>
      if decide (k' = k) then (k, v) :: rest else (k', v') :: map_store k v rest
  end.

(** [delete(m, k)] *)
Fixpoint map_delete (k : string) (m : object) : object :=
  match m with
  | [] => []
  | (k', v') :: rest =>
      if decide (k' = k) then map_delete k rest else (k', v') :: map_delete k rest
  end.

(** [x == "lit"] for an interface value [x] and a string constant: true
    only when the dynamic type is [string] and the contents agree. *)
Definition iface_eq_string (x : value) (lit : string) : bool :=
  match x with
  | VString s => bool_decide (s = lit)
  | _ => false
  end.

(** The three outcomes of the [unstructured.Nested*] accessors: the value,
    [found = false], or a type error.  The program only ever passes a
    single field name. *)
Inductive nested (A : Type) : Type :=
| Found (a : A)
| Missing
| Mistyped.
Arguments Found {A} a.
Arguments Missing {A}.
Arguments Mistyped {A}.

Definition NestedMap (obj : object) (field : string) : nested object :=
  match map_lookup field obj with
  | None => Missing
  | Some (VMap m) => Found m
  | Some _ => Mistyped
  end.

Definition NestedString (obj : object) (field : string) : nested string :=
  match map_lookup field obj with
  | None => Missing
  | Some (VString s) => Found s
  | Some _ => Mistyped
  end.

Definition NestedSlice (obj : object) (field : string) : nested (list value) :=
  match map_lookup field obj with
  | None => Missing
  | Some (VSlice l) => Found l
  | Some _ => Mistyped
  end.

(** [x, _, _ := unstructured.Nested...(...)]: the zero value unless found. *)
Definition nested_or {A} (zero : A) (r : nested A) : A :=
  match r with
  | Found a => a
  | _ => zero
  end.

(** ** [fmt.Sprintf("%v", x)] on a document value *)

Fixpoint insert_by_key (e : string * string) (l : list (string * string))
  : list (string * string) :=
  match l with
  | [] => [e]
  | e' :: rest =>
      if String.leb (fst e) (fst e') then e :: l else e' :: insert_by_key e rest
  end.

Definition sort_by_key (l : list (string * string)) : list (string * string) :=
  foldr insert_by_key [] l.

Fixpoint join_space (l : list string) : string :=
  match l with
  | [] => ""
  | [s] => s
  | s :: rest => s +:+ " " +:+ join_space rest
  end.

(** [nil] prints as [<nil>], a string as itself, a slice as [[a b]] and a
    map as [map[k:v k:v]] with its keys in increasing order. *)
Fixpoint sprint_v (x : value) : string :=
  match x with
  | VNil => "<nil>"
  | VBool b => if b then "true" else "false"
  | VInt n => pretty n
  | VFloat text => text
  | VString s => s
  | VSlice l => "[" +:+ join_space (map sprint_v l) +:+ "]"
  | VMap m =>
      let entries :=
        (fix render (m : object) : list (string * string) :=
           match m with
           | [] => []
           | (k, v) :: rest => (k, sprint_v v) :: render rest
           end) m in
      "map[" +:+ join_space (map (λ e, fst e +:+ ":" +:+ snd e) (sort_by_key entries))
             +:+ "]"
  end.

(** ** The status interpreter *)

(** The [for _, c := range conditions] loop of [parseKnativeStatus]. *)
Fixpoint scan_conditions (conditions : list value) (url : string)
  : bool * string * string :=
  match conditions with
  | [] => (false, "Ready condition not found", url)
  | c :: rest =>
      match c with
      | VMap cond =>
          if iface_eq_string (map_index cond "type") "Ready" then
            if iface_eq_string (map_index cond "status") "True" then
              (true, "", url)
            else
              (false, sprint_v (map_index cond "message"), url)
          else scan_conditions rest url
      | _ => scan_conditions rest url
      end
  end.

Definition parseKnativeStatus (obj : object) : bool * string * string :=
  match NestedMap obj "status" with
  | Found status =>
      let url := nested_or "" (NestedString status "url") in
      match NestedSlice status "conditions" with
      | Found conditions => scan_conditions conditions url
      | _ => (false, "No conditions", url)
      end
  | _ => (false, "No status", "")
  end.

(** ** Errors *)

(** [ErrorString] is an error made by [fmt.Errorf] without [%w],
    [WrapError msg e] is [fmt.Errorf("msg: %w", e)], [ApiError] is an error
    returned by the resource client, carrying the answer that
    [errors.IsNotFound] gives on it, and [ContextError] is [ctx.Err()]. *)
Inductive error : Type :=
| ErrorString (msg : string)
| WrapError (msg : string) (inner : error)
| ApiError (notFound : bool) (msg : string)
| ContextError (canceled : bool).

Fixpoint IsNotFound (e : error) : bool :=
  match e with
  | ApiError nf _ => nf
  | WrapError _ inner => IsNotFound inner
  | _ => false
  end.

Inductive result (A : Type) : Type :=
| Ok (a : A)
| Err (e : error).
Arguments Ok {A} a.
Arguments Err {A} e.

(** ** Calls on the outside world

    Everything the program does to the cluster and to the file system.  The
    bytes of a request body are left as the document they encode, and the
    progress lines printed on standard output are not modelled. *)
Inductive call : Type :=
| InClusterConfig
| NewForConfig
| ApplyPatch (resource namespace name : string) (data : object)
             (fieldManager : string) (force : bool)
| Get (resource namespace name : string)
| MergePatchStatus (resource namespace name : string) (data : object)
                   (fieldManager : string)
| WriteFile (path : string) (data : object).

(** A computation that has made some calls and then returned, failed, or
    ([None]) is still blocked in the poll loop. *)
Definition flow (A : Type) : Type := list call * option (result A).

Definition ret {A} (a : A) : flow A := ([], Some (Ok a)).
Definition fail {A} (e : error) : flow A := ([], Some (Err e)).
Definition lift {A} (r : result A) : flow A := ([], Some r).

Definition bind {A B} (m : flow A) (k : A → flow B) : flow B :=
  match m with
  | (cs, Some (Ok a)) => let '(cs', r) := k a in (cs ++ cs', r)
  | (cs, Some (Err e)) => (cs, Some (Err e))
  | (cs, None) => (cs, None)
  end.

#[global] Instance flow_ret : MRet flow := @ret.
#[global] Instance flow_bind : MBind flow := λ A B k m, bind m k.

(** A call together with the answer the world gives to it. *)
Definition request {A} (c : call) (answer : result A) : flow A :=
  ([c], Some answer).

Definition after {A} (c : call) (m : flow A) : flow A :=
  (c :: m.1, m.2).

(** [if err != nil { return fmt.Errorf("msg: %w", err) }] *)
Definition wrap {A} (msg : string) (m : flow A) : flow A :=
  match m with
  | (cs, Some (Err e)) => (cs, Some (Err (WrapError msg e)))
  | _ => m
  end.

(** ** The readiness poller *)

(** One iteration of the [select] in [waitForReady] takes one of its three
    cases; [Tick r] is the ticker case together with what [client.Get]
    answers to it, and [CtxDone] carries which of the two context errors
    [ctx.Err()] is. *)
Inductive event : Type :=
| CtxDone (canceled : bool)
| TimeoutFired
| Tick (r : result object).

Definition timeout_error : error :=
  ErrorString "timeout waiting for service readiness".

(** [waitForReady] run against the sequence of [select] cases taken;
    [client] is the resource and namespace the client is bound to. *)
Fixpoint waitForReady (events : list event) (client : string * string)
    (name : string) : flow string :=
  match events with
  | [] => ([], None)
  | CtxDone canceled :: _ => fail (ContextError canceled)
  | TimeoutFired :: _ => fail timeout_error
  | Tick r :: rest =>
      after (Get client.1 client.2 name)
        match r with
        | Err err =>
            if IsNotFound err then waitForReady rest client name
            else fail err
        | Ok obj =>
            let '(isReady, msg, url) := parseKnativeStatus obj in
            if isReady then ret url
            else waitForReady rest client name
        end
  end.

(** ** Process environment and [strings] helpers *)

Definition Getenv (env : gmap string string) (key : string) : string :=
  default "" (env !! key).

(** [strings.Split(s, ",")] *)
Fixpoint Split (s : string) : list string :=
  match s with
  | "" => [""]
  | String c rest =>
      if decide (c = ","%char) then "" :: Split rest
      else match Split rest with
           | piece :: pieces => String c piece :: pieces
           | [] => [String c ""]
           end
  end.

Definition of_bytes (l : list nat) : string :=
  foldr (λ n s, String (Ascii.ascii_of_nat n) s) "" l.

(** The UTF-8 encodings of the runes for which [unicode.IsSpace] holds. *)
Definition space_runes : list string :=
  of_bytes <$>
    [ [9]; [10]; [11]; [12]; [13]; [32]; [194; 133]; [194; 160];
      [225; 154; 128];
      [226; 128; 128]; [226; 128; 129]; [226; 128; 130]; [226; 128; 131];
      [226; 128; 132]; [226; 128; 133]; [226; 128; 134]; [226; 128; 135];
      [226; 128; 136]; [226; 128; 137]; [226; 128; 138];
      [226; 128; 168]; [226; 128; 169]; [226; 128; 175]; [226; 129; 159];
      [227; 128; 128] ].

Fixpoint strip_prefix (p s : string) : option string :=
  match p, s with
  | "", _ => Some s
  | String a p', String b s' =>
      if decide (a = b) then strip_prefix p' s' else None
  | _, "" => None
  end.

Definition strip_any (runes : list string) (s : string) : option string :=
  list_find is_Some ((λ p, strip_prefix p s) <$> runes) ≫= snd.

Fixpoint trim_left (fuel : nat) (runes : list string) (s : string) : string :=
  match fuel with
  | 0 => s
  | S fuel' =>
      match strip_any runes s with
      | Some s' => trim_left fuel' runes s'
      | None => s
      end
  end.

(** [strings.TrimSpace] *)
Definition TrimSpace (s : string) : string :=
  let l := trim_left (String.length s) space_runes s in
  String.rev (trim_left (String.length l) (String.rev <$> space_runes) (String.rev l)).

(** ** The resource store's side of a merge patch

    What the store does with the body of a [types.MergePatchType] request
    (RFC 7386): a [null] member deletes, an object member is merged into
    the member of the same name, anything else replaces. *)
Fixpoint merge_patch (target patch : value) {struct patch} : value :=
  match patch with
  | VMap pm =>
      VMap ((fix members (pm : object) (tm : object) {struct pm} : object :=
               match pm with
               | [] => tm
               | (k, pv) :: rest =>
                   members rest
                     match pv with
                     | VNil => map_delete k tm
                     | _ => map_store k (merge_patch (map_index tm k) pv) tm
                     end
               end) pm
              match target with
              | VMap tm => tm
              | _ => []
              end)
  | _ => patch
  end.

Definition patched (obj patch : object) : object :=
  match merge_patch (VMap obj) (VMap patch) with
  | VMap m => m
  | _ => obj
  end.

(** What the answers of the outside world are in one run of the program.
    [poll_events] is the sequence of [select] cases that the poll loop of
    [runDeploy] takes; its context is [context.Background()], which is
    never done, so no [CtxDone] occurs there. *)
Record world : Type := {
  in_cluster_config : option error;
  new_for_config : option error;
  apply_service : option error;
  poll_events : list event;
  write_file : option error;
  get_service : result object;
  get_function : result object;
  patch_function : option error
}.

Definition answer (o : option error) : result unit :=
  match o with
  | None => Ok ()
  | Some e => Err e
  end.

Definition getDynamicClient (w : world) : flow unit :=
  _ ← wrap "failed to get in-cluster config"
        (request InClusterConfig (answer (in_cluster_config w)));
  wrap "failed to create dynamic client"
    (request NewForConfig (answer (new_for_config w))).

Definition writeTerminationMessage (env : gmap string string) (url : string)
    (w : world) : flow unit :=
  let msg := [("url", VString url)] in
  let path :=
    let custom := Getenv env "TERMINATION_LOG_PATH" in
    if decide (custom ≠ "") then custom else "/dev/termination-log" in
  request (WriteFile path msg) (answer (write_file w)).

(** [u.SetAnnotations(annotations)] for a non-nil map: the string map is
    stored under [metadata.annotations], making [metadata] when it is not
    there and giving up silently when it is not a map. *)
Definition SetAnnotations (annotations : gmap string string) (u : object)
  : object :=
  let m := VMap (prod_map id VString <$> map_to_list annotations) in
  match map_lookup "metadata" u with
  | Some (VMap metadata) =>
      map_store "metadata" (VMap (map_store "annotations" m metadata)) u
  | Some _ => u
  | None => map_store "metadata" (VMap [("annotations", m)]) u
  end.

(** [if val != "" { annotations[key] = val }] *)
Definition annotate (key val : string) (annotations : gmap string string)
  : gmap string string :=
  if decide (val ≠ "") then <[key := val]> annotations else annotations.

(** The forwarded variables of [runDeploy]. *)
Definition containerEnv (env : gmap string string) (forwarded : string)
  : list value :=
  if decide (forwarded ≠ "") then
    omap (λ v,
            let v := TrimSpace v in
            if decide (v = "") then None
            else Some (VMap [("name", VString v);
                             ("value", VString (Getenv env v))]))
         (Split forwarded)
  else [].

(** The tracked [status.state] and [status.url] as [runObserve] reads them:
    the empty string when the field, or the whole status, is not there. *)
Definition currentState (kfObj : object) : string :=
  let status := nested_or [] (NestedMap kfObj "status") in
  nested_or "" (NestedString status "state").

Definition currentURL (kfObj : object) : string :=
  let status := nested_or [] (NestedMap kfObj "status") in
  nested_or "" (NestedString status "url").

(** The [specPatch] document of [runObserve]. *)
Definition status_patch (newState url newDetail : string) : object :=
  let status := [("state", VString newState); ("url", VString url)] in
  let status :=
    if decide (newDetail ≠ "") then map_store "detail" (VString newDetail) status
    else status in
  [("status", VMap status)].

(** ** [cmd/main.go] *)
Module Main.

Record EnvConfig : Type := {
  Audience : string;
  ForwardedEnvVars : string;
  FunctionBasePath : string;
  FunctionGeneration : string;
  FunctionHost : string;
  FunctionImage : string;
  FunctionName : string;
  FunctionNamespace : string;
  Issuer : string;
  JWKSURL : string;
  ScalingActivationScale : string;
  ScalingInitialScale : string;
  ScalingMaxScale : string;
  ScalingMetric : string;
  ScalingMinScale : string;
  ScalingPanicThresholdPercentage : string;
  ScalingPanicWindowPercentage : string;
  ScalingScaleDownDelay : string;
  ScalingScaleToZeroPodRetentionPeriod : string;
  ScalingStableWindow : string;
  ScalingTarget : string;
  ScalingTargetUtilizationPercentage : string
}.

(** The [cfg := &EnvConfig{...}] literal of [LoadEnv]. *)
Definition read_env (env : gmap string string) : EnvConfig := {|
  Audience := Getenv env "AUDIENCE";
  ForwardedEnvVars := Getenv env "FORWARDED_ENV_VARS";
  FunctionBasePath := Getenv env "FUNCTION_BASEPATH";
  FunctionGeneration := Getenv env "FUNCTION_GENERATION";
  FunctionHost := Getenv env "FUNCTION_HOST";
  FunctionImage := Getenv env "FUNCTION_IMAGE";
  FunctionName := Getenv env "FUNCTION_NAME";
  FunctionNamespace := Getenv env "FUNCTION_NAMESPACE";
  Issuer := Getenv env "ISSUER";
  JWKSURL := Getenv env "JWKS_URL";
  ScalingActivationScale := Getenv env "SCALING_ACTIVATION_SCALE";
  ScalingInitialScale := Getenv env "SCALING_INITIAL_SCALE";
  ScalingMaxScale := Getenv env "SCALING_MAX_SCALE";
  ScalingMetric := Getenv env "SCALING_METRIC";
  ScalingMinScale := Getenv env "SCALING_MIN_SCALE";
  ScalingPanicThresholdPercentage :=
    Getenv env "SCALING_PANIC_THRESHOLD_PERCENTAGE";
  ScalingPanicWindowPercentage :=
    Getenv env "SCALING_PANIC_WINDOW_PERCENTAGE";
  ScalingScaleDownDelay := Getenv env "SCALING_SCALE_DOWN_DELAY";
  ScalingScaleToZeroPodRetentionPeriod :=
    Getenv env "SCALING_SCALE_TO_ZERO_POD_RETENTION_PERIOD";
  ScalingStableWindow := Getenv env "SCALING_STABLE_WINDOW";
  ScalingTarget := Getenv env "SCALING_TARGET";
  ScalingTargetUtilizationPercentage :=
    Getenv env "SCALING_TARGET_UTILIZATION_PERCENTAGE"
|}.

(** [LoadEnv], reading the environment [env] and [os.Args = args]. *)
Definition LoadEnv (env : gmap string string) (args : list string)
  : result EnvConfig :=
  let cfg := read_env env in
  if decide (FunctionName cfg = "") then
    Err (ErrorString "FUNCTION_NAME is required")
  else if decide (FunctionNamespace cfg = "") then
    Err (ErrorString "FUNCTION_NAMESPACE is required")
  else if bool_decide (FunctionImage cfg = "")
          && bool_decide (1 < length args)
          && bool_decide (args !! 1 = Some "deploy") then
    Err (ErrorString "FUNCTION_IMAGE is required for deploy")
  else Ok cfg.

(** The [service] literal of [runDeploy]. *)
Definition service (cfg : EnvConfig) (containerEnv : list value) : object :=
  let labels :=
    VMap [("kdex.dev/function", VString (FunctionName cfg));
          ("kdex.dev/generation", VString (FunctionGeneration cfg))] in
  [("apiVersion", VString "serving.knative.dev/v1");
   ("kind", VString "Service");
   ("metadata",
     VMap [("name", VString (FunctionName cfg));
           ("namespace", VString (FunctionNamespace cfg));
           ("labels", labels)]);
   ("spec",
     VMap [("template",
       VMap [("metadata", VMap [("labels", labels)]);
             ("spec",
               VMap [("containers",
                 VSlice [VMap [("image", VString (FunctionImage cfg));
                               ("env", VSlice containerEnv)]])])])])].

(** The scaling knobs, each with the annotation it is written to, in the
    order of the [if] statements of [runDeploy]. *)
Definition scaling_knobs : list (string * (EnvConfig → string)) :=
  [("autoscaling.knative.dev/activation-scale", ScalingActivationScale);
   ("autoscaling.knative.dev/initial-scale", ScalingInitialScale);
   ("autoscaling.knative.dev/max-scale", ScalingMaxScale);
   ("autoscaling.knative.dev/metric", ScalingMetric);
   ("autoscaling.knative.dev/min-scale", ScalingMinScale);
   ("autoscaling.knative.dev/panic-threshold-percentage",
     ScalingPanicThresholdPercentage);
   ("autoscaling.knative.dev/panic-window-percentage",
     ScalingPanicWindowPercentage);
   ("autoscaling.knative.dev/scale-down-delay", ScalingScaleDownDelay);
   ("autoscaling.knative.dev/scale-to-zero-pod-retention-period",
     ScalingScaleToZeroPodRetentionPeriod);
   ("autoscaling.knative.dev/target", ScalingTarget);
   ("autoscaling.knative.dev/target-utilization-percentage",
     ScalingTargetUtilizationPercentage);
   ("autoscaling.knative.dev/window", ScalingStableWindow)].

(** One of the [if] statements that fill the [annotations] map. *)
Definition annotate_knob (cfg : EnvConfig) (annotations : gmap string string)
    (knob : string * (EnvConfig → string)) : gmap string string :=
  annotate knob.1 (knob.2 cfg) annotations.

(** The [annotations] map of [runDeploy] once all the [if] statements have
    run. *)
Definition annotations (cfg : EnvConfig) : gmap string string :=
  foldl (annotate_knob cfg) ∅ scaling_knobs.

(** The document [runDeploy] applies. *)
Definition desired_service (env : gmap string string) (cfg : EnvConfig)
  : object :=
  SetAnnotations (annotations cfg)
    (service cfg (containerEnv env (ForwardedEnvVars cfg))).

Definition runDeploy (env : gmap string string) (args : list string)
    (w : world) : flow unit :=
  cfg ← lift (LoadEnv env args);
  _ ← getDynamicClient w;
  let resourceClient := ("services", FunctionNamespace cfg) in
  _ ← wrap "failed to apply knative service"
        (request
           (ApplyPatch "services" (FunctionNamespace cfg) (FunctionName cfg)
              (desired_service env cfg) "kdex-knative-deployer" true)
           (answer (apply_service w)));
  url ← wrap "failed to wait for service readiness"
          (waitForReady (poll_events w) resourceClient (FunctionName cfg));
  wrap "failed to write termination message"
    (writeTerminationMessage env url w).

(** The status transition logic of [runObserve]: from what the interpreter
    said and the tracked [state] and [url] to
    [(needsUpdate, newState, newDetail)]. *)
Definition reconcile (cfg : EnvConfig) (isReady : bool) (msg url : string)
    (currentState currentURL : string) : bool * string * string :=
  if isReady then
    let '(needsUpdate, newState, newDetail) :=
      if decide (currentState ≠ "Ready") then
        (true, "Ready", "Ready: " +:+ url +:+ FunctionBasePath cfg)
      else (false, currentState, "") in
    let needsUpdate :=
      if decide (currentURL ≠ url) then true else needsUpdate in
    (needsUpdate, newState, newDetail)
  else
    if decide (currentState = "Ready") then
      (true, "FunctionDeployed", "NotReady: " +:+ url +:+ FunctionBasePath cfg)
    else (false, currentState, "").

(** The patch that one observation of the live object [ksObj] asks for on
    the tracked object [kfObj], if any: step 3 of [runObserve]. *)
Definition observe (cfg : EnvConfig) (ksObj kfObj : object) : option object :=
  let '(isReady, msg, url) := parseKnativeStatus ksObj in
  let '(needsUpdate, newState, newDetail) :=
    reconcile cfg isReady msg url (currentState kfObj) (currentURL kfObj) in
  if needsUpdate then Some (status_patch newState url newDetail) else None.

Definition runObserve (env : gmap string string) (args : list string)
    (w : world) : flow unit :=
  cfg ← lift (LoadEnv env args);
  _ ← getDynamicClient w;
  let get_ks := Get "services" (FunctionNamespace cfg) (FunctionName cfg) in
  match get_service w with
  | Err err =>
      after get_ks
        (if IsNotFound err then ret ()
         else fail (WrapError "failed to get knative service" err))
  | Ok ksObj =>
      after get_ks
        (kfObj ← wrap "failed to get kdex function"
                   (request
                      (Get "kdexfunctions" (FunctionNamespace cfg)
                         (FunctionName cfg))
                      (get_function w));
         match observe cfg ksObj kfObj with
         | Some patch =>
             wrap "failed to patch kdex function status"
               (request
                  (MergePatchStatus "kdexfunctions" (FunctionNamespace cfg)
                     (FunctionName cfg) patch "kdex-knative-observer")
                  (answer (patch_function w)))
         | None => ret ()
         end)
  end.

Definition main (env : gmap string string) (args : list string) (w : world)
  : flow unit :=
  let cmd := default "deploy" (args !! 1) in
  if decide (cmd = "deploy") then runDeploy env args w
  else if decide (cmd = "observe") then runObserve env args w
  else fail (ErrorString ("unknown command: " +:+ cmd)).

End Main.

(** ** The second copy of the program

    It has no scaling knobs and no base path; its [LoadEnv], its service
    document and its transition logic are the ones that differ. *)
Module Part000.

Record EnvConfig : Type := {
  FunctionHost : string;
  FunctionGeneration : string;
  FunctionName : string;
  FunctionNamespace : string;
  FunctionImage : string;
  ForwardedEnvVars : string;
  Audience : string;
  Issuer : string;
  JWKSURL : string
}.

Definition LoadEnv (env : gmap string string) (args : list string)
  : result EnvConfig :=
  let cfg := {|
    FunctionHost := Getenv env "FUNCTION_HOST";
    FunctionGeneration := Getenv env "FUNCTION_GENERATION";
    FunctionName := Getenv env "FUNCTION_NAME";
    FunctionNamespace := Getenv env "FUNCTION_NAMESPACE";
    FunctionImage := Getenv env "FUNCTION_IMAGE";
    ForwardedEnvVars := Getenv env "FORWARDED_ENV_VARS";
    Audience := Getenv env "AUDIENCE";
    Issuer := Getenv env "ISSUER";
    JWKSURL := Getenv env "JWKS_URL"
  |} in
  if decide (FunctionName cfg = "") then
    Err (ErrorString "FUNCTION_NAME is required")
  else if decide (FunctionNamespace cfg = "") then
    Err (ErrorString "FUNCTION_NAMESPACE is required")
  else if bool_decide (FunctionImage cfg = "")
          && bool_decide (1 < length args)
          && bool_decide (args !! 1 = Some "deploy") then
    Err (ErrorString "FUNCTION_IMAGE is required for deploy")
  else Ok cfg.

(** The [service] literal, which is applied as it is. *)
Definition service (cfg : EnvConfig) (containerEnv : list value) : object :=
  let labels :=
    VMap [("kdex.dev/function", VString (FunctionName cfg));
          ("kdex.dev/generation", VString (FunctionGeneration cfg))] in
  [("apiVersion", VString "serving.knative.dev/v1");
   ("kind", VString "Service");
   ("metadata",
     VMap [("name", VString (FunctionName cfg));
           ("namespace", VString (FunctionNamespace cfg));
           ("labels", labels)]);
   ("spec",
     VMap [("template",
       VMap [("metadata",
               VMap [("annotations",
                       VMap [("autoscaling.knative.dev/minScale", VString "0")]);
                     ("labels", labels)]);
             ("spec",
               VMap [("containers",
                 VSlice [VMap [("image", VString (FunctionImage cfg));
                               ("env", VSlice containerEnv)]])])])])].

Definition reconcile (isReady : bool) (msg url : string)
    (currentState currentURL : string) : bool * string * string :=
  if isReady then
    let '(needsUpdate, newState, newDetail) :=
      if decide (currentState ≠ "Ready") then
        (true, "Ready", "Ready: " +:+ url)
      else (false, currentState, "") in
    let needsUpdate :=
      if decide (currentURL ≠ url) then true else needsUpdate in
    (needsUpdate, newState, newDetail)
  else
    if decide (currentState = "Ready") then
      (true, "FunctionDeployed", "NotReady: " +:+ msg)
    else (false, currentState, "").

Definition observe (ksObj kfObj : object) : option object :=
  let '(isReady, msg, url) := parseKnativeStatus ksObj in
  let '(needsUpdate, newState, newDetail) :=
    reconcile isReady msg url (currentState kfObj) (currentURL kfObj) in
  if needsUpdate then Some (status_patch newState url newDetail) else None.

End Part000.

(** The process exit status after [main]: [os.Exit(1)] on an error. *)
Definition exit_status {A} (m : flow A) : option Z :=
  match m.2 with
  | Some (Ok _) => Some 0%Z
  | Some (Err _) => Some 1%Z
  | None => None
  end.

(** ** Vocabulary of the statements *)

(** A condition entry that the scan of [parseKnativeStatus] stops at. *)
Definition is_ready_condition (c : value) : bool :=
  match c with
  | VMap cond => iface_eq_string (map_index cond "type") "Ready"
  | _ => false
  end.

(** [c.status == "True"] for an entry [c] of the conditions list. *)
Definition has_status_true (c : value) : bool :=
  match c with
  | VMap cond => iface_eq_string (map_index cond "status") "True"
  | _ => false
  end.

(** [_, ok := c["message"]] for an entry [c] of the conditions list. *)
Definition has_message (c : value) : bool :=
  match c with
  | VMap cond => bool_decide (is_Some (map_lookup "message" cond))
  | _ => false
  end.

(** The [status.url] of the live object, as the interpreter reports it. *)
Definition live_url (ksObj : object) : string :=
  nested_or "" (NestedString (nested_or [] (NestedMap ksObj "status")) "url").

(** A tick of the poll loop on which the read failed with not-found. *)
Definition is_not_found_tick (ev : event) : bool :=
  match ev with
  | Tick (Err err) => IsNotFound err
  | _ => false
  end.

Definition is_status_patch (c : call) : bool :=
  match c with
  | MergePatchStatus _ _ _ _ _ => true
  | _ => false
  end.

(** The status patches among the calls of a run. *)
Definition patches_issued {A} (m : flow A) : list call :=
  filter (λ c, is_status_patch c = true) m.1.

(** What [GetAnnotations] would find under [key] in a document. *)
Definition annotation_of (doc : object) (key : string) : option value :=
  match NestedMap doc "metadata" with
  | Found metadata =>
      match NestedMap metadata "annotations" with
      | Found a => map_lookup key a
      | _ => None
      end
  | _ => None
  end.

(** The annotations of the revision template of a service document. *)
Definition template_annotations (doc : object) : option value :=
  match NestedMap doc "spec" with
  | Found spec =>
      match NestedMap spec "template" with
      | Found template =>
          match NestedMap template "metadata" with
          | Found metadata => map_lookup "annotations" metadata
          | _ => None
          end
      | _ => None
      end
  | _ => None
  end.

(** ** Sample objects *)

(** A live object whose conditions list holds a [Ready] entry with status
    [False] in front of a [Ready] entry with status [True]. *)
Definition shadowed_conditions : list value :=
  [VMap [("type", VString "Ready"); ("status", VString "False");
         ("message", VString "RevisionFailed")];
   VMap [("type", VString "Ready"); ("status", VString "True")]].

Definition shadowed_ready : object :=
  [("status",
     VMap [("url", VString "http://x");
           ("conditions", VSlice shadowed_conditions)])].

(** A live object that is ready, with other entries around its [Ready]
    entry. *)
Definition late_ready : object :=
  [("status",
     VMap [("url", VString "http://x");
           ("conditions",
             VSlice [VString "junk";
                     VMap [("type", VString "ConfigurationsReady");
                           ("status", VString "False")];
                     VMap [("type", VString "Ready"); ("status", VString "True")];
                     VMap [("type", VString "Ready");
                           ("status", VString "False")]])])].

(** A live object whose [Ready] entry is [Unknown] and says nothing more. *)
Definition silent_unknown : object :=
  [("status",
     VMap [("url", VString "http://x");
           ("conditions",
             VSlice [VMap [("type", VString "Ready");
                           ("status", VString "Unknown")]])])].

(** An environment with the two identity variables and nothing else, one
    that also sets a base path, and the command lines of the two flows. *)
Definition identity_env : gmap string string :=
  {[ "FUNCTION_NAME" := "f"; "FUNCTION_NAMESPACE" := "ns" ]}.

Definition base_path_env : gmap string string :=
  <[ "FUNCTION_BASEPATH" := "/api" ]> identity_env.

(** A tracked object in state [Ready] that recorded a url, and one whose
    status was never written. *)
Definition tracked_ready : object :=
  [("spec", VMap [("image", VString "img")]);
   ("status", VMap [("state", VString "Ready"); ("url", VString "http://x");
                    ("detail", VString "Ready: http://x")])].

Definition tracked_unset : object :=
  [("spec", VMap [("image", VString "img")])].

Definition tracked_deployed : object :=
  [("status", VMap [("state", VString "FunctionDeployed")])].

(** A live object that stopped being ready and says why. *)
Definition failed_revision : object :=
  [("status",
     VMap [("url", VString "http://x");
           ("conditions",
             VSlice [VMap [("type", VString "Ready"); ("status", VString "False");
                           ("message", VString "RevisionFailed")]])])].

(** A world in which every call succeeds and the service is ready at the
    second tick of the poll loop. *)
Definition deploying_world : world := {|
  in_cluster_config := None;
  new_for_config := None;
  apply_service := None;
  poll_events := [Tick (Err (ApiError true "services f not found"));
                  Tick (Ok late_ready)];
  write_file := None;
  get_service := Ok late_ready;
  get_function := Ok tracked_unset;
  patch_function := None
|}.

(** A world in which every call succeeds, the live object is
    [failed_revision] and the tracked object is [tracked_ready]. *)
Definition degrading_world : world := {|
  in_cluster_config := None;
  new_for_config := None;
  apply_service := None;
  poll_events := [];
  write_file := None;
  get_service := Ok failed_revision;
  get_function := Ok tracked_ready;
  patch_function := None
|}.

(** ** Further vocabulary and sample worlds *)


(** The path [writeTerminationMessage] writes to. *)
Definition termination_log_path (env : gmap string string) : string :=
  let custom := Getenv env "TERMINATION_LOG_PATH" in
  if decide (custom ≠ "") then custom else "/dev/termination-log".

(** The three calls every deploy starts with once it gets that far. *)
Definition deploy_prelude (env : gmap string string) (cfg : Main.EnvConfig)
  : list call :=
  [InClusterConfig; NewForConfig;
   ApplyPatch "services" (Main.FunctionNamespace cfg) (Main.FunctionName cfg)
     (Main.desired_service env cfg) "kdex-knative-deployer" true].

(** Calls that change something: on the service, on the tracked function,
    or on the file system. *)
Definition is_apply (c : call) : bool :=
  match c with
  | ApplyPatch _ _ _ _ _ _ => true
  | _ => false
  end.

Definition is_write_file (c : call) : bool :=
  match c with
  | WriteFile _ _ => true
  | _ => false
  end.

(** [unstructured.NestedFieldNoCopy(obj, fields...)] for any number of
    fields. *)
Fixpoint NestedFieldNoCopy (obj : value) (fields : list string) : nested value :=
  match fields with
  | [] => Found obj
  | field :: rest =>
      match obj with
      | VNil => Missing
      | VMap m =>
          match map_lookup field m with
          | Some v => NestedFieldNoCopy v rest
          | None => Missing
          end
      | _ => Mistyped
      end
  end.

(** A world where the service never shows up before the timeout. *)
Definition timing_out_world : world := {|
  in_cluster_config := None;
  new_for_config := None;
  apply_service := None;
  poll_events := [Tick (Err (ApiError true "services f not found"));
                  Tick (Ok failed_revision); TimeoutFired];
  write_file := None;
  get_service := Err (ApiError true "services f not found");
  get_function := Err (ApiError true "kdexfunctions f not found");
  patch_function := None
|}.

(** A world without a cluster to talk to. *)
Definition offline_world : world := {|
  in_cluster_config := Some (ErrorString "unable to load in-cluster configuration");
  new_for_config := None;
  apply_service := Some (ErrorString "connection refused");
  poll_events := [];
  write_file := None;
  get_service := Err (ErrorString "connection refused");
  get_function := Err (ErrorString "connection refused");
  patch_function := Some (ErrorString "connection refused")
|}.

(** * Properties *)

(** ** Association lists *)
Section map_lemmas.
Implicit Types (k : string) (v : value) (m : object).

Lemma map_lookup_store_eq k v m : map_lookup k (map_store k v m) = Some v.
Proof.
  induction m as [|[k' v'] m IH]; simpl.
  - by rewrite decide_True.
  - destruct (decide (k' = k)) as [->|Hne]; simpl.
    + by rewrite decide_True.
    + by rewrite decide_False.
Qed.

Lemma map_lookup_store_ne k k' v m :
  k ≠ k' → map_lookup k' (map_store k v m) = map_lookup k' m.
Proof.
  intros Hne. induction m as [|[k0 v0] m IH]; simpl.
  - by rewrite decide_False.
  - destruct (decide (k0 = k)) as [->|Hk0]; simpl.
    + by rewrite !decide_False.
    + destruct (decide (k0 = k')); auto.
Qed.

(** An association list reads like the finite map it lists. *)
Lemma map_lookup_list_to_map k m :
  map_lookup k m = (list_to_map m : gmap string value) !! k.
Proof.
  induction m as [|[k' v'] m IH]; simpl; [done|].
  destruct (decide (k' = k)) as [->|Hne].
  - by rewrite lookup_insert_eq.
  - by rewrite lookup_insert_ne.
Qed.
End map_lemmas.

(** ** The status interpreter *)

(** The scan is decided by the first entry of type [Ready]. *)
Lemma scan_conditions_first conditions url i c :
  list_find (λ c, is_ready_condition c = true) conditions = Some (i, c) →
  scan_conditions conditions url =
    if has_status_true c then (true, "", url)
    else (false,
          sprint_v match c with VMap cond => map_index cond "message" | _ => VNil end,
          url).
Proof.
  revert i. induction conditions as [|c0 rest IH]; intros i Hfind; [done|].
  simpl in Hfind |- *.
  destruct (decide (is_ready_condition c0 = true)) as [Hc0|Hc0].
  - simplify_eq. destruct c; try done. simpl in *. by rewrite Hc0.
  - destruct (list_find _ rest) as [[j c']|] eqn:Hrest; simplify_eq/=.
    rewrite <- (IH j eq_refl).
    destruct c0; try done. simpl in Hc0.
    by destruct (iface_eq_string _ "Ready").
Qed.

Lemma scan_conditions_none conditions url :
  list_find (λ c, is_ready_condition c = true) conditions = None →
  scan_conditions conditions url = (false, "Ready condition not found", url).
Proof.
  induction conditions as [|c0 rest IH]; [done|].
  simpl.
  destruct (decide (is_ready_condition c0 = true)) as [Hc0|Hc0]; [done|].
  destruct (list_find _ rest) as [[j c']|] eqn:Hrest; [done|]. intros _.
  rewrite <- IH by done.
  destruct c0; try done. simpl in Hc0.
  by destruct (iface_eq_string _ "Ready").
Qed.

Lemma parseKnativeStatus_conditions obj status conditions :
  NestedMap obj "status" = Found status →
  NestedSlice status "conditions" = Found conditions →
  parseKnativeStatus obj = scan_conditions conditions (live_url obj).
Proof.
  intros Hs Hc. unfold parseKnativeStatus, live_url. by rewrite Hs, Hc.
Qed.

(** The url component never depends on the conditions. *)
Lemma parseKnativeStatus_url obj : (parseKnativeStatus obj).2 = live_url obj.
Proof.
  unfold parseKnativeStatus, live_url.
  destruct (NestedMap obj "status") as [status| |]; simpl; try done.
  destruct (NestedSlice status "conditions") as [conditions| |]; simpl; try done.
  generalize (nested_or "" (NestedString status "url")). intros url.
  induction conditions as [|c rest IH]; simpl; [done|].
  destruct c; try done.
  destruct (iface_eq_string _ "Ready"); [|done].
  by destruct (iface_eq_string _ "True").
Qed.

Example sprint_v_nested :
  sprint_v (VMap [("b", VSlice [VInt 1; VNil]); ("a", VString "x")])
  = "map[a:x b:[1 <nil>]]".
Proof. vm_compute. reflexivity. Qed.

(** The tests of [TestParseKnativeStatus]. *)
Example parseKnativeStatus_tests :
  parseKnativeStatus [] = (false, "No status", "")
  ∧ parseKnativeStatus [("status", VMap [("url", VString "http://myurl")])]
    = (false, "No conditions", "http://myurl")
  ∧ parseKnativeStatus
      [("status", VMap [("url", VString "http://myurl");
         ("conditions",
           VSlice [VMap [("type", VString "Ready"); ("status", VString "True")]])])]
    = (true, "", "http://myurl")
  ∧ parseKnativeStatus
      [("status", VMap [("url", VString "http://myurl");
         ("conditions",
           VSlice [VMap [("type", VString "Ready"); ("status", VString "False");
                         ("message", VString "some error")]])])]
    = (false, "some error", "http://myurl").
Proof. repeat split; reflexivity. Qed.

(** C1 as stated does not hold: a [Ready]/[True] entry that comes after
    another [Ready] entry is never looked at. *)
Lemma parse_ready_any_position_fails :
  ¬ (∀ obj status conditions c,
       NestedMap obj "status" = Found status →
       NestedSlice status "conditions" = Found conditions →
       c ∈ conditions →
       is_ready_condition c = true →
       has_status_true c = true →
       parseKnativeStatus obj = (true, "", live_url obj)).
Proof.
  intros H.
  specialize (H shadowed_ready
    [("url", VString "http://x"); ("conditions", VSlice shadowed_conditions)]
    shadowed_conditions
    (VMap [("type", VString "Ready"); ("status", VString "True")])
    eq_refl eq_refl).
  assert (parseKnativeStatus shadowed_ready = (false, "RevisionFailed", "http://x"))
    as Hrun by reflexivity.
  rewrite Hrun in H. discriminate H; [set_solver|done|done].
Qed.

(** C1, amended: when the first entry of type [Ready] in the conditions
    list has status [True], [parseKnativeStatus] returns
    [(true, "", url)], whatever the other entries are and wherever that
    entry stands. *)
Theorem parse_first_ready_true obj status conditions i c :
  NestedMap obj "status" = Found status →
  NestedSlice status "conditions" = Found conditions →
  list_find (λ c, is_ready_condition c = true) conditions = Some (i, c) →
  has_status_true c = true →
  parseKnativeStatus obj = (true, "", live_url obj).
Proof.
  intros Hs Hc Hfind Htrue.
  rewrite (parseKnativeStatus_conditions _ _ _ Hs Hc).
  rewrite (scan_conditions_first _ _ _ _ Hfind). by rewrite Htrue.
Qed.

Lemma parse_first_ready_true_witness :
  parseKnativeStatus late_ready = (true, "", live_url late_ready).
Proof.
  apply (parse_first_ready_true late_ready
           [("url", VString "http://x");
            ("conditions",
              VSlice [VString "junk";
                      VMap [("type", VString "ConfigurationsReady");
                            ("status", VString "False")];
                      VMap [("type", VString "Ready"); ("status", VString "True")];
                      VMap [("type", VString "Ready");
                            ("status", VString "False")]])]
           [VString "junk";
            VMap [("type", VString "ConfigurationsReady");
                  ("status", VString "False")];
            VMap [("type", VString "Ready"); ("status", VString "True")];
            VMap [("type", VString "Ready"); ("status", VString "False")]]
           2 (VMap [("type", VString "Ready"); ("status", VString "True")]));
    reflexivity.
Defined.

(** C10: when the first entry of type [Ready] has a status other than
    [True] and no [message] field, the reason is the text [<nil>], and so
    not the empty string. *)
Theorem parse_missing_message obj status conditions i c :
  NestedMap obj "status" = Found status →
  NestedSlice status "conditions" = Found conditions →
  list_find (λ c, is_ready_condition c = true) conditions = Some (i, c) →
  has_status_true c = false →
  has_message c = false →
  parseKnativeStatus obj = (false, "<nil>", live_url obj)
  ∧ (parseKnativeStatus obj).1.2 ≠ "".
Proof.
  intros Hs Hc Hfind Hnot Hmsg.
  assert (parseKnativeStatus obj = (false, "<nil>", live_url obj)) as ->;
    [|by split].
  rewrite (parseKnativeStatus_conditions _ _ _ Hs Hc).
  rewrite (scan_conditions_first _ _ _ _ Hfind). rewrite Hnot.
  destruct c as [| | | | | |cond]; try done.
  unfold has_message in Hmsg. apply bool_decide_eq_false in Hmsg.
  unfold map_index. destruct (map_lookup "message" cond) eqn:Hm; [|done].
  destruct Hmsg. by eexists.
Qed.

Lemma parse_missing_message_witness :
  parseKnativeStatus silent_unknown = (false, "<nil>", live_url silent_unknown)
  ∧ (parseKnativeStatus silent_unknown).1.2 ≠ "".
Proof.
  apply (parse_missing_message silent_unknown
           [("url", VString "http://x");
            ("conditions",
              VSlice [VMap [("type", VString "Ready");
                            ("status", VString "Unknown")]])]
           [VMap [("type", VString "Ready"); ("status", VString "Unknown")]]
           0 (VMap [("type", VString "Ready"); ("status", VString "Unknown")]));
    reflexivity.
Defined.

(** ** The status reconciler *)

Lemma string_app_empty_r (s : string) : s +:+ "" = s.
Proof.
  induction s as [|a s IH]; [done|].
  change (String a s +:+ "") with (String a (s +:+ "")). by rewrite IH.
Qed.

(** After the store has merged a status patch, the tracked state and url
    read back as the ones the patch carries. *)
Lemma currentState_patched kfObj newState url newDetail :
  currentState (patched kfObj (status_patch newState url newDetail)) = newState.
Proof.
  unfold patched, status_patch, currentState.
  destruct (decide (newDetail ≠ "")); simpl;
    unfold NestedMap; rewrite map_lookup_store_eq; simpl;
    unfold NestedString;
    rewrite ?(map_lookup_store_ne "detail" "state") by done;
    rewrite (map_lookup_store_ne "url" "state") by done;
    by rewrite map_lookup_store_eq.
Qed.

Lemma currentURL_patched kfObj newState url newDetail :
  currentURL (patched kfObj (status_patch newState url newDetail)) = url.
Proof.
  unfold patched, status_patch, currentURL.
  destruct (decide (newDetail ≠ "")); simpl;
    unfold NestedMap; rewrite map_lookup_store_eq; simpl;
    unfold NestedString;
    rewrite ?(map_lookup_store_ne "detail" "url") by done;
    by rewrite map_lookup_store_eq.
Qed.

(** The patch leaves every other member of the tracked object alone. *)
Lemma patched_other_members kfObj newState url newDetail k :
  k ≠ "status" →
  map_lookup k (patched kfObj (status_patch newState url newDetail))
  = map_lookup k kfObj.
Proof.
  intros Hk. unfold patched, status_patch.
  destruct (decide (newDetail ≠ "")); simpl;
    by rewrite map_lookup_store_ne.
Qed.

Lemma reconcile_not_ready cfg msg url state cur :
  Main.reconcile cfg false msg url state cur =
    if decide (state = "Ready")
    then (true, "FunctionDeployed",
          "NotReady: " +:+ url +:+ Main.FunctionBasePath cfg)
    else (false, state, "").
Proof. reflexivity. Qed.

Lemma reconcile_ready cfg msg url state cur :
  Main.reconcile cfg true msg url state cur =
    if decide (state ≠ "Ready")
    then (true, "Ready", "Ready: " +:+ url +:+ Main.FunctionBasePath cfg)
    else (bool_decide (cur ≠ url), state, "").
Proof.
  unfold Main.reconcile. destruct (decide (state ≠ "Ready")); simpl.
  - by destruct (decide (cur ≠ url)).
  - destruct (decide (cur ≠ url)).
    + by rewrite bool_decide_eq_true_2.
    + by rewrite bool_decide_eq_false_2.
Qed.

(** The second copy reports the interpreter's reason when it degrades. *)
Lemma part000_reconcile_not_ready msg url cur :
  Part000.reconcile false msg url "Ready" cur
  = (true, "FunctionDeployed", "NotReady: " +:+ msg).
Proof. reflexivity. Qed.

Lemma part000_reconcile_ready msg url state cur :
  state ≠ "Ready" →
  Part000.reconcile true msg url state cur = (true, "Ready", "Ready: " +:+ url).
Proof.
  intros Hs. unfold Part000.reconcile. rewrite decide_True by done.
  by destruct (decide (cur ≠ url)).
Qed.

(** The status patches of a run of [runObserve]: at most one, and only
    when everything before it went through. *)
Lemma runObserve_patches env args w :
  patches_issued (Main.runObserve env args w) =
    match Main.LoadEnv env args, in_cluster_config w, new_for_config w,
          get_service w, get_function w with
    | Ok cfg, None, None, Ok ksObj, Ok kfObj =>
        match Main.observe cfg ksObj kfObj with
        | Some patch =>
            [MergePatchStatus "kdexfunctions" (Main.FunctionNamespace cfg)
               (Main.FunctionName cfg) patch "kdex-knative-observer"]
        | None => []
        end
    | _, _, _, _, _ => []
    end.
Proof.
  unfold Main.runObserve.
  destruct (Main.LoadEnv env args) as [cfg|e]; [|done].
  unfold getDynamicClient.
  destruct (in_cluster_config w) as [e1|]; [done|].
  destruct (new_for_config w) as [e2|]; [done|].
  destruct (get_service w) as [ksObj|e3].
  2:{ simpl. by destruct (IsNotFound e3). }
  destruct (get_function w) as [kfObj|e4]; [|done].
  simpl. destruct (Main.observe cfg ksObj kfObj) as [patch|]; [|done].
  by destruct (patch_function w).
Qed.

Lemma reconcile_idempotent cfg isReady msg url state cur newState newDetail :
  Main.reconcile cfg isReady msg url state cur = (true, newState, newDetail) →
  Main.reconcile cfg isReady msg url newState url = (false, newState, "").
Proof.
  assert (¬ url ≠ url) as Hurl by (intros H; by apply H).
  assert (¬ "Ready" ≠ "Ready") as Hready by (intros H; by apply H).
  destruct isReady.
  - rewrite !reconcile_ready.
    destruct (decide (state ≠ "Ready")) as [Hs|Hs]; intros Heq.
    + injection Heq as <- _. rewrite decide_False by done.
      by rewrite bool_decide_eq_false_2.
    + injection Heq as _ <- _. apply dec_stable in Hs. subst state.
      rewrite decide_False by done. by rewrite bool_decide_eq_false_2.
  - rewrite !reconcile_not_ready.
    destruct (decide (state = "Ready")); intros Heq; [|done].
    by injection Heq as <- _.
Qed.

Lemma part000_reconcile_idempotent isReady msg url state cur newState newDetail :
  Part000.reconcile isReady msg url state cur = (true, newState, newDetail) →
  Part000.reconcile isReady msg url newState url = (false, newState, "").
Proof.
  assert (¬ url ≠ url) as Hurl by (intros H; by apply H).
  assert (¬ "Ready" ≠ "Ready") as Hready by (intros H; by apply H).
  unfold Part000.reconcile. destruct isReady.
  - destruct (decide (state ≠ "Ready")) as [Hs|Hs]; intros Heq.
    + assert (newState = "Ready") as -> by (by destruct (decide (cur ≠ url));
        injection Heq as <- _).
      by rewrite !decide_False.
    + apply dec_stable in Hs. subst state.
      assert (newState = "Ready") as ->
        by (destruct (decide (cur ≠ url)); by simplify_eq).
      by rewrite !decide_False.
  - destruct (decide (state = "Ready")); intros Heq; [|done].
    by injection Heq as <- _.
Qed.

(** The second copy of the program is idempotent in the same way. *)
Lemma part000_observe_idempotent ksObj kfObj patch :
  Part000.observe ksObj kfObj = Some patch →
  Part000.observe ksObj (patched kfObj patch) = None.
Proof.
  unfold Part000.observe.
  destruct (parseKnativeStatus ksObj) as [[isReady msg] url].
  destruct (Part000.reconcile isReady msg url _ _) as [[needsUpdate newState] newDetail]
    eqn:Hrec.
  destruct needsUpdate; [|done]. intros [= <-].
  rewrite currentState_patched, currentURL_patched.
  by rewrite (part000_reconcile_idempotent _ _ _ _ _ _ _ Hrec).
Qed.

(** C4: once the patch that a pass decided on has been merged into the
    tracked object, a second pass against the same live object decides
    that nothing needs updating, and a run of [runObserve] on it issues no
    patch. *)
Theorem observe_idempotent cfg ksObj kfObj patch :
  Main.observe cfg ksObj kfObj = Some patch →
  Main.observe cfg ksObj (patched kfObj patch) = None
  ∧ ∀ env args w,
      Main.LoadEnv env args = Ok cfg →
      get_service w = Ok ksObj →
      get_function w = Ok (patched kfObj patch) →
      patches_issued (Main.runObserve env args w) = [].
Proof.
  intros Hobs.
  assert (Main.observe cfg ksObj (patched kfObj patch) = None) as Hsecond.
  { revert Hobs. unfold Main.observe.
    destruct (parseKnativeStatus ksObj) as [[isReady msg] url].
    destruct (Main.reconcile cfg isReady msg url _ _)
      as [[needsUpdate newState] newDetail] eqn:Hrec.
    destruct needsUpdate; [|done]. intros [= <-].
    rewrite currentState_patched, currentURL_patched.
    by rewrite (reconcile_idempotent _ _ _ _ _ _ _ _ Hrec). }
  split; [done|]. intros env args w Hcfg Hks Hkf.
  rewrite runObserve_patches, Hcfg, Hks, Hkf, Hsecond.
  by destruct (in_cluster_config w), (new_for_config w).
Qed.

Lemma observe_idempotent_witness :
  Main.observe (Main.read_env identity_env) failed_revision
    (patched tracked_ready
       (status_patch "FunctionDeployed" "http://x" "NotReady: http://x"))
  = None.
Proof.
  eapply proj1.
  apply (observe_idempotent (Main.read_env identity_env) failed_revision
           tracked_ready).
  vm_compute. reflexivity.
Defined.

(** C5: while the tracked state is anything but [Ready], a live object
    that is not ready never leads to an update, whatever its reason and
    url and whatever url is tracked: the decision is [needsUpdate = false]
    and a run of [runObserve] issues no patch. *)
Theorem no_flap ksObj kfObj :
  (parseKnativeStatus ksObj).1.1 = false →
  currentState kfObj ≠ "Ready" →
  (∀ cfg msg url cur,
     Main.reconcile cfg false msg url (currentState kfObj) cur
     = (false, currentState kfObj, ""))
  ∧ (∀ cfg, Main.observe cfg ksObj kfObj = None)
  ∧ (∀ env args w,
       get_service w = Ok ksObj →
       get_function w = Ok kfObj →
       patches_issued (Main.runObserve env args w) = []).
Proof.
  intros Hnot Hstate.
  assert (∀ cfg msg url cur,
            Main.reconcile cfg false msg url (currentState kfObj) cur
            = (false, currentState kfObj, "")) as Hrec.
  { intros. rewrite reconcile_not_ready. by rewrite decide_False. }
  assert (∀ cfg, Main.observe cfg ksObj kfObj = None) as Hobs.
  { intros cfg. unfold Main.observe.
    destruct (parseKnativeStatus ksObj) as [[isReady msg] url].
    simpl in Hnot. subst isReady. by rewrite Hrec. }
  repeat split; [done..|]. intros env args w Hks Hkf.
  rewrite runObserve_patches, Hks, Hkf.
  destruct (Main.LoadEnv env args) as [cfg|]; [|done]. rewrite Hobs.
  by destruct (in_cluster_config w), (new_for_config w).
Qed.

Lemma no_flap_witness :
  Main.observe (Main.read_env base_path_env) failed_revision tracked_deployed
  = None.
Proof.
  pose proof (no_flap failed_revision tracked_deployed) as H.
  apply H; [reflexivity|]. vm_compute. discriminate.
Defined.

Lemma part000_no_flap ksObj kfObj :
  (parseKnativeStatus ksObj).1.1 = false →
  currentState kfObj ≠ "Ready" →
  Part000.observe ksObj kfObj = None.
Proof.
  intros Hnot Hstate. unfold Part000.observe.
  destruct (parseKnativeStatus ksObj) as [[isReady msg] url].
  simpl in Hnot. subst isReady. unfold Part000.reconcile.
  by rewrite decide_False.
Qed.

(** What holds of the degrade transition in [cmd/main.go]: the update is
    decided, the new state is [FunctionDeployed], one patch is issued, and
    the detail is made from the url and the base path. *)
Lemma degrade_decision cfg ksObj kfObj msg url :
  parseKnativeStatus ksObj = (false, msg, url) →
  currentState kfObj = "Ready" →
  Main.observe cfg ksObj kfObj
  = Some (status_patch "FunctionDeployed" url
            ("NotReady: " +:+ url +:+ Main.FunctionBasePath cfg)).
Proof.
  intros Hparse Hstate. unfold Main.observe.
  rewrite Hparse, reconcile_not_ready, Hstate. by rewrite decide_True.
Qed.

Lemma degrade_one_patch env args w cfg ksObj kfObj :
  Main.LoadEnv env args = Ok cfg →
  in_cluster_config w = None →
  new_for_config w = None →
  get_service w = Ok ksObj →
  get_function w = Ok kfObj →
  (parseKnativeStatus ksObj).1.1 = false →
  currentState kfObj = "Ready" →
  length (patches_issued (Main.runObserve env args w)) = 1.
Proof.
  intros Hcfg Hc1 Hc2 Hks Hkf Hnot Hstate.
  rewrite runObserve_patches, Hcfg, Hc1, Hc2, Hks, Hkf.
  destruct (parseKnativeStatus ksObj) as [[isReady msg] url] eqn:Hparse.
  simpl in Hnot. subst isReady.
  by rewrite (degrade_decision cfg _ _ _ _ Hparse Hstate).
Qed.

(** The degrade transition of the second copy, which C2 describes. *)
Lemma part000_degrade_decision ksObj kfObj msg url :
  parseKnativeStatus ksObj = (false, msg, url) →
  currentState kfObj = "Ready" →
  Part000.observe ksObj kfObj
  = Some (status_patch "FunctionDeployed" url ("NotReady: " +:+ msg)).
Proof.
  intros Hparse Hstate. unfold Part000.observe.
  rewrite Hparse, Hstate. reflexivity.
Qed.

(** C2, on [cmd/main.go]: the live object [failed_revision] is not ready
    for the reason [RevisionFailed] and the tracked state is [Ready]; the
    run issues its one patch to [FunctionDeployed], but the detail is
    [NotReady: http://x], made from the url, and not
    [NotReady: RevisionFailed]. *)
Theorem degrade_detail_drops_reason :
  parseKnativeStatus failed_revision = (false, "RevisionFailed", "http://x")
  ∧ currentState tracked_ready = "Ready"
  ∧ Main.reconcile (Main.read_env identity_env) false "RevisionFailed"
      "http://x" "Ready" "http://x"
    = (true, "FunctionDeployed", "NotReady: http://x")
  ∧ patches_issued
      (Main.main identity_env ["knative-deployer"; "observe"] degrading_world)
    = [MergePatchStatus "kdexfunctions" "ns" "f"
         [("status",
            VMap [("state", VString "FunctionDeployed");
                  ("url", VString "http://x");
                  ("detail", VString "NotReady: http://x")])]
         "kdex-knative-observer"]
  ∧ "NotReady: http://x" ≠ "NotReady: " +:+ "RevisionFailed"
  ∧ Part000.reconcile false "RevisionFailed" "http://x" "Ready" "http://x"
    = (true, "FunctionDeployed", "NotReady: RevisionFailed").
Proof. repeat split; try (vm_compute; reflexivity). discriminate. Qed.

(** C3 as stated does not hold on [cmd/main.go]: with a base path in the
    configuration the detail is not ["Ready: " + url]. *)
Lemma ready_detail_is_not_bare_url :
  ¬ (∀ cfg msg url state cur,
       state ≠ "Ready" →
       Main.reconcile cfg true msg url state cur
       = (true, "Ready", "Ready: " +:+ url)).
Proof.
  intros H.
  specialize (H (Main.read_env base_path_env) "" "http://x" "" "").
  assert (Main.reconcile (Main.read_env base_path_env) true "" "http://x" "" ""
          = (true, "Ready", "Ready: http://x/api")) as Hrun
    by (vm_compute; reflexivity).
  rewrite Hrun in H. by specialize (H ltac:(done)).
Qed.

(** C3, amended: when the live object is ready and the tracked state is
    not [Ready], the update is decided with new state [Ready] and detail
    ["Ready: " + url + base path], which is ["Ready: " + url] when no base
    path is configured; when the tracked url differs from the live one the
    update is decided even in state [Ready]; and in both cases the patch
    carries the live url, which is the url tracked afterwards. *)
Theorem ready_transition cfg ksObj kfObj msg url :
  parseKnativeStatus ksObj = (true, msg, url) →
  currentState kfObj ≠ "Ready" ∨ currentURL kfObj ≠ url →
  let detail :=
    if decide (currentState kfObj ≠ "Ready")
    then "Ready: " +:+ url +:+ Main.FunctionBasePath cfg else "" in
  Main.reconcile cfg true msg url (currentState kfObj) (currentURL kfObj)
  = (true, "Ready", detail)
  ∧ Main.observe cfg ksObj kfObj = Some (status_patch "Ready" url detail)
  ∧ currentURL (patched kfObj (status_patch "Ready" url detail)) = url
  ∧ (Main.FunctionBasePath cfg = "" →
     currentState kfObj ≠ "Ready" →
     detail = "Ready: " +:+ url).
Proof.
  intros Hparse Hdrift detail.
  assert (Main.reconcile cfg true msg url (currentState kfObj) (currentURL kfObj)
          = (true, "Ready", detail)) as Hrec.
  { rewrite reconcile_ready. subst detail.
    destruct (decide (currentState kfObj ≠ "Ready")) as [Hs|Hs]; [done|].
    apply dec_stable in Hs. rewrite Hs.
    destruct Hdrift as [?|Hu]; [done|]. by rewrite bool_decide_eq_true_2. }
  split; [done|]. split.
  { unfold Main.observe. by rewrite Hparse, Hrec. }
  split; [apply currentURL_patched|].
  intros Hbase Hs. subst detail. rewrite decide_True by done.
  rewrite Hbase. by rewrite string_app_empty_r.
Qed.

Lemma ready_transition_witness :
  let cfg := Main.read_env identity_env in
  let detail :=
    if decide (currentState tracked_unset ≠ "Ready")
    then "Ready: " +:+ "http://x" +:+ Main.FunctionBasePath cfg else "" in
  Main.reconcile cfg true "" "http://x" (currentState tracked_unset)
    (currentURL tracked_unset)
  = (true, "Ready", detail)
  ∧ Main.observe cfg late_ready tracked_unset
    = Some (status_patch "Ready" "http://x" detail)
  ∧ currentURL (patched tracked_unset (status_patch "Ready" "http://x" detail))
    = "http://x"
  ∧ (Main.FunctionBasePath cfg = "" →
     currentState tracked_unset ≠ "Ready" →
     detail = "Ready: " +:+ "http://x").
Proof.
  apply (ready_transition (Main.read_env identity_env) late_ready tracked_unset
           "" "http://x").
  - vm_compute. reflexivity.
  - left. vm_compute. discriminate.
Defined.

(** Scenario C: tracked state unset, live url [http://x], no base path. *)
Example scenario_c :
  Main.reconcile (Main.read_env identity_env) true "" "http://x" "" ""
  = (true, "Ready", "Ready: http://x")
  ∧ Main.observe (Main.read_env identity_env) late_ready tracked_unset
    = Some [("status", VMap [("state", VString "Ready");
                             ("url", VString "http://x");
                             ("detail", VString "Ready: http://x")])].
Proof. split; vm_compute; reflexivity. Qed.

(** C9: on the degrade transition the patch carries the live url, which is
    the url tracked once the patch is merged; a live object without a
    status block has the empty url, and the tracked url is then erased. *)
Theorem degrade_overwrites_url cfg ksObj kfObj :
  (parseKnativeStatus ksObj).1.1 = false →
  currentState kfObj = "Ready" →
  ∃ patch status,
    Main.observe cfg ksObj kfObj = Some patch
    ∧ NestedMap patch "status" = Found status
    ∧ NestedString status "state" = Found "FunctionDeployed"
    ∧ NestedString status "url" = Found (live_url ksObj)
    ∧ currentURL (patched kfObj patch) = live_url ksObj
    ∧ (map_lookup "status" ksObj = None →
       currentURL (patched kfObj patch) = "").
Proof.
  intros Hnot Hstate.
  pose proof (parseKnativeStatus_url ksObj) as Hurl.
  destruct (parseKnativeStatus ksObj) as [[isReady msg] url] eqn:Hparse.
  simpl in Hnot, Hurl. subst isReady url.
  set (detail := "NotReady: " +:+ live_url ksObj +:+ Main.FunctionBasePath cfg).
  assert (detail ≠ "") as Hdetail by done.
  exists (status_patch "FunctionDeployed" (live_url ksObj) detail).
  exists [("state", VString "FunctionDeployed"); ("url", VString (live_url ksObj));
          ("detail", VString detail)].
  split; [by apply (degrade_decision _ _ _ msg)|].
  split; [unfold status_patch; by rewrite decide_True|].
  split; [done|]. split; [done|].
  split; [apply currentURL_patched|].
  intros Hmissing. rewrite currentURL_patched.
  unfold live_url, NestedMap. by rewrite Hmissing.
Qed.

Lemma degrade_overwrites_url_witness :
  currentURL tracked_ready = "http://x"
  ∧ ∃ patch status,
      Main.observe (Main.read_env identity_env) [] tracked_ready = Some patch
      ∧ NestedMap patch "status" = Found status
      ∧ NestedString status "state" = Found "FunctionDeployed"
      ∧ NestedString status "url" = Found (live_url [])
      ∧ currentURL (patched tracked_ready patch) = live_url []
      ∧ (map_lookup "status" [] = None →
         currentURL (patched tracked_ready patch) = "").
Proof.
  split; [reflexivity|].
  apply (degrade_overwrites_url (Main.read_env identity_env) [] tracked_ready);
    reflexivity.
Defined.

(** ** The readiness poller *)

Section poller.
Variables (client : string * string) (name : string).

#[local] Abbreviation get := (Get client.1 client.2 name).

(** Ticks that find nothing are passed over, one read each. *)
Lemma waitForReady_skip ticks rest :
  Forall (λ ev, is_not_found_tick ev = true) ticks →
  waitForReady (ticks ++ rest) client name
  = (replicate (length ticks) get ++ (waitForReady rest client name).1,
     (waitForReady rest client name).2).
Proof.
  induction 1 as [|ev ticks Hev _ IH]; simpl.
  - by destruct (waitForReady rest client name).
  - destruct ev as [| |[obj|err]]; try done. simpl in Hev.
    rewrite Hev, IH. reflexivity.
Qed.

(** As long as the poller has not returned, what comes next decides. *)
Lemma waitForReady_pending events rest :
  (waitForReady events client name).2 = None →
  waitForReady (events ++ rest) client name
  = ((waitForReady events client name).1 ++ (waitForReady rest client name).1,
     (waitForReady rest client name).2).
Proof.
  induction events as [|ev events IH]; simpl.
  - intros _. by destruct (waitForReady rest client name).
  - destruct ev as [canceled| |[obj|e]]; simpl; try done.
    + destruct (parseKnativeStatus obj) as [[isReady msg] url].
      destruct isReady; [done|]. intros Hpending. by rewrite IH.
    + destruct (IsNotFound e); [|done]. intros Hpending. by rewrite IH.
Qed.

(** No run of the poller ends in an error for which [errors.IsNotFound]
    holds. *)
Lemma waitForReady_error events err :
  (waitForReady events client name).2 = Some (Err err) →
  IsNotFound err = false.
Proof.
  induction events as [|ev events IH]; simpl; [done|].
  destruct ev as [canceled| |[obj|e]]; simpl.
  - by intros [= <-].
  - by intros [= <-].
  - destruct (parseKnativeStatus obj) as [[isReady msg] url].
    destruct isReady; [done|]. apply IH.
  - destruct (IsNotFound e) eqn:He; [apply IH|].
    simpl. by intros [= <-].
Qed.

(** C6: while every read fails with not-found the poller keeps polling,
    one read per tick and no result; when the timeout fires it returns
    the timeout failure, which is not a not-found failure, and no run
    returns one; and whenever the poller is still polling, a read that
    fails with any other error ends the polling at once with that error. *)
Theorem waitForReady_not_found ticks :
  Forall (λ ev, is_not_found_tick ev = true) ticks →
  waitForReady ticks client name = (replicate (length ticks) get, None)
  ∧ (∀ rest,
       waitForReady (ticks ++ TimeoutFired :: rest) client name
       = (replicate (length ticks) get, Some (Err timeout_error)))
  ∧ IsNotFound timeout_error = false
  ∧ (∀ events err,
       (waitForReady events client name).2 = Some (Err err) →
       IsNotFound err = false)
  ∧ (∀ events err rest,
       (waitForReady events client name).2 = None →
       IsNotFound err = false →
       waitForReady (events ++ Tick (Err err) :: rest) client name
       = ((waitForReady events client name).1 ++ [get], Some (Err err))).
Proof.
  intros Hticks. repeat split.
  - rewrite <- (app_nil_r ticks) at 1.
    rewrite (waitForReady_skip _ _ Hticks). simpl. by rewrite app_nil_r.
  - intros rest. rewrite (waitForReady_skip _ _ Hticks). simpl.
    by rewrite app_nil_r.
  - apply waitForReady_error.
  - intros events err rest Hpending Herr.
    rewrite (waitForReady_pending _ _ Hpending). simpl. by rewrite Herr.
Qed.
End poller.

Lemma waitForReady_not_found_witness :
  let ticks := [Tick (Err (ApiError true "services f not found"));
                Tick (Err (ApiError true "services f not found"))] in
  let get := Get "services" "ns" "f" in
  waitForReady ticks ("services", "ns") "f" = (replicate (length ticks) get, None)
  ∧ (∀ rest,
       waitForReady (ticks ++ TimeoutFired :: rest) ("services", "ns") "f"
       = (replicate (length ticks) get, Some (Err timeout_error)))
  ∧ IsNotFound timeout_error = false
  ∧ (∀ events err,
       (waitForReady events ("services", "ns") "f").2 = Some (Err err) →
       IsNotFound err = false)
  ∧ (∀ events err rest,
       (waitForReady events ("services", "ns") "f").2 = None →
       IsNotFound err = false →
       waitForReady (events ++ Tick (Err err) :: rest) ("services", "ns") "f"
       = ((waitForReady events ("services", "ns") "f").1 ++ [get],
          Some (Err err))).
Proof.
  apply (waitForReady_not_found ("services", "ns") "f").
  repeat constructor.
Defined.

(** ** The desired-state builder *)

Section annotations.
Variable cfg : Main.EnvConfig.
Implicit Types (l : list (string * (Main.EnvConfig → string)))
               (acc : gmap string string).

#[local] Abbreviation step := (Main.annotate_knob cfg).

Lemma annotate_lookup_ne key key' val acc :
  key ≠ key' → annotate key val acc !! key' = acc !! key'.
Proof.
  intros Hne. unfold annotate. destruct (decide (val ≠ "")); [|done].
  by rewrite lookup_insert_ne.
Qed.

Lemma annotate_all_other l acc key :
  key ∉ l.*1 → foldl step acc l !! key = acc !! key.
Proof.
  revert acc. induction l as [|knob l IH]; intros acc Hkey; [done|].
  simpl in *. apply not_elem_of_cons in Hkey as [Hne Hkey].
  rewrite IH by done. unfold step. by apply annotate_lookup_ne.
Qed.

Lemma annotate_all_knob l acc knob :
  NoDup l.*1 → knob ∈ l →
  foldl step acc l !! knob.1
  = if decide (knob.2 cfg ≠ "") then Some (knob.2 cfg) else acc !! knob.1.
Proof.
  revert acc. induction l as [|knob' l IH]; intros acc Hnodup Hin.
  { by apply elem_of_nil in Hin. }
  simpl in *. apply NoDup_cons in Hnodup as [Hfresh Hnodup].
  apply elem_of_cons in Hin as [->|Hin].
  - rewrite annotate_all_other by done. unfold Main.annotate_knob, annotate.
    destruct (decide (knob'.2 cfg ≠ "")); [|done]. by rewrite lookup_insert_eq.
  - rewrite IH by done. destruct (decide (knob.2 cfg ≠ "")); [done|].
    unfold Main.annotate_knob. apply annotate_lookup_ne. intros Heq. apply Hfresh.
    rewrite Heq. by apply (list_elem_of_fmap_2 fst).
Qed.

Lemma annotate_all_Some l acc key val :
  foldl step acc l !! key = Some val →
  acc !! key = Some val
  ∨ ∃ knob, knob ∈ l ∧ knob.1 = key ∧ knob.2 cfg = val ∧ val ≠ "".
Proof.
  revert acc. induction l as [|knob l IH]; intros acc Hlook; [by left|].
  simpl in Hlook. apply IH in Hlook as [Hacc|(knob' & Hin & ?)].
  - unfold Main.annotate_knob, annotate in Hacc.
    destruct (decide (knob.2 cfg ≠ "")) as [Hval|]; [|by left].
    destruct (decide (knob.1 = key)) as [Hkey|Hkey].
    + rewrite Hkey, lookup_insert_eq in Hacc. injection Hacc as <-.
      right. exists knob. split; [apply elem_of_cons; by left|done].
    + rewrite lookup_insert_ne in Hacc by done. by left.
  - right. exists knob'. split; [apply elem_of_cons; by right|done].
Qed.
End annotations.

Lemma scaling_knobs_NoDup : NoDup Main.scaling_knobs.*1.
Proof. apply (bool_decide_unpack _). vm_compute. reflexivity. Qed.

(** The annotations of the applied document are the [annotations] map. *)
Lemma annotation_of_desired_service env cfg key :
  annotation_of (Main.desired_service env cfg) key
  = VString <$> Main.annotations cfg !! key.
Proof.
  unfold annotation_of, Main.desired_service, SetAnnotations, Main.service.
  simpl. unfold NestedMap. simpl.
  rewrite map_lookup_list_to_map, list_to_map_fmap, list_to_map_to_list.
  by rewrite lookup_fmap.
Qed.

(** C7: in the document that [runDeploy] applies, the annotation of a
    scaling knob is there exactly when the knob has a non-empty value, and
    is then that value; every annotation there is comes from such a knob;
    and the revision template carries no annotation at all. *)
Theorem scaling_knobs_only_when_set env cfg :
  (∀ knob, knob ∈ Main.scaling_knobs →
     annotation_of (Main.desired_service env cfg) knob.1
     = if decide (knob.2 cfg = "") then None else Some (VString (knob.2 cfg)))
  ∧ (∀ key v,
       annotation_of (Main.desired_service env cfg) key = Some v →
       ∃ knob, knob ∈ Main.scaling_knobs ∧ knob.1 = key
               ∧ v = VString (knob.2 cfg) ∧ knob.2 cfg ≠ "")
  ∧ template_annotations (Main.desired_service env cfg) = None.
Proof.
  split; [|split; [|reflexivity]].
  - intros knob Hin. rewrite annotation_of_desired_service.
    unfold Main.annotations.
    rewrite (annotate_all_knob cfg _ _ _ scaling_knobs_NoDup Hin).
    destruct (decide (knob.2 cfg ≠ "")) as [Hval|Hval].
    + by rewrite decide_False.
    + apply dec_stable in Hval. by rewrite decide_True, lookup_empty.
  - intros key v. rewrite annotation_of_desired_service.
    destruct (Main.annotations cfg !! key) as [val|] eqn:Hlook; [|done].
    intros [= <-]. apply annotate_all_Some in Hlook as [Hempty|Hknob].
    + by rewrite lookup_empty in Hempty.
    + destruct Hknob as (knob & Hin & Hkey & Hval & Hne).
      exists knob. by rewrite Hval.
Qed.

(** The second copy has no knobs, and its revision template always asks
    for a minimum scale of zero. *)
Lemma part000_template_annotations cfg containerEnv :
  template_annotations (Part000.service cfg containerEnv)
  = Some (VMap [("autoscaling.knative.dev/minScale", VString "0")]).
Proof. reflexivity. Qed.

(** Scenario B: the forwarded variables, trimmed, without the blank ones. *)
Example scenario_b :
  containerEnv {[ "A" := "1"; "B" := "2" ]} "A, ,B"
  = [VMap [("name", VString "A"); ("value", VString "1")];
     VMap [("name", VString "B"); ("value", VString "2")]].
Proof. vm_compute. reflexivity. Qed.

(** ** Configuration loading *)

Lemma bind_lift_Ok {A B} (a : A) (k : A → flow B) : lift (Ok a) ≫= k = k a.
Proof. unfold mbind, flow_bind, bind, lift. by destruct (k a). Qed.

Lemma getDynamicClient_first_call {A} w (k : unit → flow A) :
  ∃ cs, (getDynamicClient w ≫= k).1 = InClusterConfig :: cs.
Proof.
  unfold getDynamicClient, mbind, flow_bind.
  destruct (in_cluster_config w); simpl; [by eexists|].
  destruct (new_for_config w); simpl; [by eexists|].
  destruct (k ()) as [cs r]. by eexists.
Qed.

(** With the subcommand spelled out, a deploy without an image stops in
    [LoadEnv], before any call is made, and the process exits with 1. *)
Lemma explicit_deploy_requires_image env args w :
  args !! 1 = Some "deploy" →
  Getenv env "FUNCTION_NAME" ≠ "" →
  Getenv env "FUNCTION_NAMESPACE" ≠ "" →
  Getenv env "FUNCTION_IMAGE" = "" →
  Main.LoadEnv env args = Err (ErrorString "FUNCTION_IMAGE is required for deploy")
  ∧ Main.main env args w
    = ([], Some (Err (ErrorString "FUNCTION_IMAGE is required for deploy")))
  ∧ exit_status (Main.main env args w) = Some 1%Z.
Proof.
  intros Hargs Hname Hns Himage.
  assert (Main.LoadEnv env args
          = Err (ErrorString "FUNCTION_IMAGE is required for deploy")) as Hload.
  { unfold Main.LoadEnv. simpl.
    rewrite decide_False by done. rewrite decide_False by done.
    rewrite Himage, Hargs.
    assert (1 < length args) as Hlen by (by apply lookup_lt_Some in Hargs).
    by rewrite (bool_decide_eq_true_2 _ Hlen). }
  assert (Main.main env args w
          = ([], Some (Err (ErrorString "FUNCTION_IMAGE is required for deploy"))))
    as Hmain.
  { unfold Main.main. rewrite Hargs. simpl.
    unfold Main.runDeploy. by rewrite Hload. }
  by rewrite Hmain.
Qed.

(** C8, on [cmd/main.go]: with no subcommand on the command line and no
    [FUNCTION_IMAGE] in the environment, [main] runs the deploy flow,
    [LoadEnv] succeeds with an empty image, and the flow goes on to build
    its client and to apply a service whose container image is empty. *)
Theorem default_deploy_skips_image_check :
  identity_env !! "FUNCTION_IMAGE" = None
  ∧ Main.LoadEnv identity_env ["knative-deployer"]
    = Ok (Main.read_env identity_env)
  ∧ Main.FunctionImage (Main.read_env identity_env) = ""
  ∧ (∀ w, Main.main identity_env ["knative-deployer"] w
          = Main.runDeploy identity_env ["knative-deployer"] w)
  ∧ (∀ w, ∃ cs,
       (Main.main identity_env ["knative-deployer"] w).1 = InClusterConfig :: cs)
  ∧ Main.main identity_env ["knative-deployer"] deploying_world
    = ([InClusterConfig; NewForConfig;
        ApplyPatch "services" "ns" "f"
          (Main.desired_service identity_env (Main.read_env identity_env))
          "kdex-knative-deployer" true;
        Get "services" "ns" "f"; Get "services" "ns" "f";
        WriteFile "/dev/termination-log" [("url", VString "http://x")]],
       Some (Ok ()))
  ∧ Main.LoadEnv identity_env ["knative-deployer"; "deploy"]
    = Err (ErrorString "FUNCTION_IMAGE is required for deploy").
Proof.
  assert (Main.LoadEnv identity_env ["knative-deployer"]
          = Ok (Main.read_env identity_env)) as Hload
    by (vm_compute; reflexivity).
  repeat split; try (vm_compute; reflexivity).
  intros w. change (Main.main identity_env ["knative-deployer"] w)
    with (Main.runDeploy identity_env ["knative-deployer"] w).
  unfold Main.runDeploy. rewrite Hload, bind_lift_Ok.
  apply getDynamicClient_first_call.
Qed.

(** * Further properties *)

(** ** The status interpreter, case by case *)

(** The interpreter says ready exactly when the status is a map, its
    conditions are a list, and the first entry of type [Ready] in that
    list has status [True]. *)
Theorem parse_ready_iff obj :
  (parseKnativeStatus obj).1.1 = true ↔
  ∃ status conditions i c,
    NestedMap obj "status" = Found status
    ∧ NestedSlice status "conditions" = Found conditions
    ∧ list_find (λ c, is_ready_condition c = true) conditions = Some (i, c)
    ∧ has_status_true c = true.
Proof.
  split.
  - unfold parseKnativeStatus.
    destruct (NestedMap obj "status") as [status| |] eqn:Hs; try done.
    destruct (NestedSlice status "conditions") as [conditions| |] eqn:Hc;
      try done.
    simpl. intros Hready.
    destruct (list_find (λ c, is_ready_condition c = true) conditions)
      as [[i c]|] eqn:Hfind.
    + rewrite (scan_conditions_first _ _ _ _ Hfind) in Hready.
      destruct (has_status_true c) eqn:Htrue; [|done].
      by exists status, conditions, i, c.
    + by rewrite (scan_conditions_none _ _ Hfind) in Hready.
  - intros (status & conditions & i & c & Hs & Hc & Hfind & Htrue).
    rewrite (parseKnativeStatus_conditions _ _ _ Hs Hc).
    rewrite (scan_conditions_first _ _ _ _ Hfind). by rewrite Htrue.
Qed.

(** A ready answer always comes with the empty reason and the url of the
    status. *)
Theorem parse_ready_reason_empty obj :
  (parseKnativeStatus obj).1.1 = true →
  parseKnativeStatus obj = (true, "", live_url obj).
Proof.
  intros Hready. pose proof (parseKnativeStatus_url obj) as Hurl.
  revert Hready Hurl. unfold parseKnativeStatus.
  destruct (NestedMap obj "status") as [status| |]; try done.
  destruct (NestedSlice status "conditions") as [conditions| |]; try done.
  generalize (nested_or "" (NestedString status "url")). intros url.
  induction conditions as [|c rest IH]; simpl; [done|].
  destruct c; try done.
  destruct (iface_eq_string _ "Ready"); [|done].
  destruct (iface_eq_string _ "True"); [|done].
  simpl. by intros _ <-.
Qed.

Lemma parse_ready_reason_empty_witness :
  parseKnativeStatus late_ready = (true, "", live_url late_ready).
Proof. apply (parse_ready_reason_empty late_ready). reflexivity. Defined.

(** Only the entries of type [Ready] matter to the scan: entries that are
    not maps, that have no type, or that have another type can be removed
    without changing the answer. *)
Theorem scan_conditions_only_ready conditions url :
  scan_conditions conditions url
  = scan_conditions (filter (λ c, is_ready_condition c = true) conditions) url.
Proof.
  induction conditions as [|c rest IH]; [done|].
  rewrite filter_cons.
  destruct (decide (is_ready_condition c = true)) as [Hc|Hc].
  - destruct c; try done. simpl in *. rewrite Hc.
    by destruct (iface_eq_string _ "True").
  - rewrite <- IH. destruct c; try done. simpl in *.
    by destruct (iface_eq_string _ "Ready").
Qed.

(** Without an entry of type [Ready] the answer is the fixed reason
    [Ready condition not found], with the url of the status. *)
Theorem parse_no_ready_condition obj status conditions :
  NestedMap obj "status" = Found status →
  NestedSlice status "conditions" = Found conditions →
  Forall (λ c, is_ready_condition c = false) conditions →
  parseKnativeStatus obj = (false, "Ready condition not found", live_url obj).
Proof.
  intros Hs Hc Hnone. rewrite (parseKnativeStatus_conditions _ _ _ Hs Hc).
  apply scan_conditions_none. apply list_find_None.
  eapply Forall_impl; [exact Hnone|]. intros c Hc'. simpl in *. by rewrite Hc'.
Qed.

Lemma parse_no_ready_condition_witness :
  let conditions :=
    [VString "junk";
     VMap [("type", VString "RoutesReady"); ("status", VString "True")];
     VMap [("status", VString "True")];
     VMap [("type", VInt 7); ("status", VString "True")]] in
  let obj := [("status", VMap [("conditions", VSlice conditions)])] in
  parseKnativeStatus obj = (false, "Ready condition not found", live_url obj).
Proof.
  intros conditions obj.
  apply (parse_no_ready_condition obj [("conditions", VSlice conditions)]
           conditions); [reflexivity|reflexivity|].
  repeat constructor.
Defined.

(** When the first entry of type [Ready] is not [True] and its message is
    a string, the reason is that string as it is, the empty one included. *)
Theorem parse_not_ready_message obj status conditions i cond message :
  NestedMap obj "status" = Found status →
  NestedSlice status "conditions" = Found conditions →
  list_find (λ c, is_ready_condition c = true) conditions = Some (i, VMap cond) →
  has_status_true (VMap cond) = false →
  map_lookup "message" cond = Some (VString message) →
  parseKnativeStatus obj = (false, message, live_url obj).
Proof.
  intros Hs Hc Hfind Hnot Hmsg.
  rewrite (parseKnativeStatus_conditions _ _ _ Hs Hc).
  rewrite (scan_conditions_first _ _ _ _ Hfind), Hnot.
  unfold map_index. by rewrite Hmsg.
Qed.

Lemma parse_not_ready_message_witness :
  parseKnativeStatus failed_revision
  = (false, "RevisionFailed", live_url failed_revision).
Proof.
  apply (parse_not_ready_message failed_revision
           [("url", VString "http://x");
            ("conditions",
              VSlice [VMap [("type", VString "Ready");
                            ("status", VString "False");
                            ("message", VString "RevisionFailed")]])]
           [VMap [("type", VString "Ready"); ("status", VString "False");
                  ("message", VString "RevisionFailed")]]
           0
           [("type", VString "Ready"); ("status", VString "False");
            ("message", VString "RevisionFailed")]);
    reflexivity.
Defined.

(** A status that is missing or is not a map gives [No status] with an
    empty url, and conditions that are missing or are not a list give
    [No conditions]; in every other case the answer is the one of the
    scan.  Nothing else can come out of the interpreter. *)
Theorem parse_cases obj :
  (∀ status, NestedMap obj "status" ≠ Found status)
    ∧ parseKnativeStatus obj = (false, "No status", "")
  ∨ (∃ status,
       NestedMap obj "status" = Found status
       ∧ (∀ conditions, NestedSlice status "conditions" ≠ Found conditions)
       ∧ parseKnativeStatus obj = (false, "No conditions", live_url obj))
  ∨ (∃ status conditions,
       NestedMap obj "status" = Found status
       ∧ NestedSlice status "conditions" = Found conditions
       ∧ Forall (λ c, is_ready_condition c = false) conditions
       ∧ parseKnativeStatus obj
         = (false, "Ready condition not found", live_url obj))
  ∨ (∃ status conditions i cond,
       NestedMap obj "status" = Found status
       ∧ NestedSlice status "conditions" = Found conditions
       ∧ list_find (λ c, is_ready_condition c = true) conditions
         = Some (i, VMap cond)
       ∧ parseKnativeStatus obj
         = if iface_eq_string (map_index cond "status") "True"
           then (true, "", live_url obj)
           else (false, sprint_v (map_index cond "message"), live_url obj)).
Proof.
  destruct (NestedMap obj "status") as [status| |] eqn:Hs.
  2,3: left; split; [done|]; unfold parseKnativeStatus; by rewrite Hs.
  right.
  destruct (NestedSlice status "conditions") as [conditions| |] eqn:Hc.
  2,3: left; exists status; split; [done|]; split; [by rewrite Hc|];
       unfold parseKnativeStatus, live_url; by rewrite Hs, Hc.
  right. rewrite (parseKnativeStatus_conditions _ _ _ Hs Hc).
  destruct (list_find (λ c, is_ready_condition c = true) conditions)
    as [[i c]|] eqn:Hfind.
  - right. pose proof Hfind as Hc'. apply list_find_Some in Hc' as (_ & Hready & _).
    destruct c as [| | | | | |cond]; try done.
    exists status, conditions, i, cond. repeat split; try done.
    by rewrite (scan_conditions_first _ _ _ _ Hfind).
  - left. exists status, conditions. repeat split; try done.
    + apply list_find_None in Hfind. eapply Forall_impl; [exact Hfind|].
      intros c Hc'. simpl in Hc'. by destruct (is_ready_condition c).
    + by apply scan_conditions_none.
Qed.

(** ** The readiness poller, beyond the not-found case *)

Section poller_more.
Variables (client : string * string) (name : string).

#[local] Abbreviation get := (Get client.1 client.2 name).

(** The first tick that reads a ready object ends the polling with the url
    of that object; nothing that would have come later is looked at. *)
Theorem waitForReady_ready events obj rest :
  (waitForReady events client name).2 = None →
  (parseKnativeStatus obj).1.1 = true →
  waitForReady (events ++ Tick (Ok obj) :: rest) client name
  = ((waitForReady events client name).1 ++ [get], Some (Ok (live_url obj))).
Proof.
  intros Hpending Hready. rewrite (waitForReady_pending _ _ _ _ Hpending).
  pose proof (parseKnativeStatus_url obj) as Hurl. simpl.
  destruct (parseKnativeStatus obj) as [[isReady msg] url].
  simpl in Hready, Hurl. by subst.
Qed.

(** A tick that reads an object that is not ready changes nothing but the
    number of reads: the polling goes on, whatever the reason is. *)
Theorem waitForReady_not_ready events obj rest :
  (waitForReady events client name).2 = None →
  (parseKnativeStatus obj).1.1 = false →
  waitForReady (events ++ Tick (Ok obj) :: rest) client name
  = ((waitForReady events client name).1 ++ get :: (waitForReady rest client name).1,
     (waitForReady rest client name).2).
Proof.
  intros Hpending Hnot. rewrite (waitForReady_pending _ _ _ _ Hpending).
  simpl. destruct (parseKnativeStatus obj) as [[isReady msg] url].
  simpl in Hnot. by subst.
Qed.

(** The timeout and the cancellation end the polling wherever it stands,
    without another read, and each with its own error. *)
Theorem waitForReady_interrupted events rest :
  (waitForReady events client name).2 = None →
  waitForReady (events ++ TimeoutFired :: rest) client name
  = ((waitForReady events client name).1, Some (Err timeout_error))
  ∧ ∀ canceled,
      waitForReady (events ++ CtxDone canceled :: rest) client name
      = ((waitForReady events client name).1,
         Some (Err (ContextError canceled)))
      ∧ ContextError canceled ≠ timeout_error.
Proof.
  intros Hpending. split; [|intros canceled; split; [|done]].
  - rewrite (waitForReady_pending _ _ _ _ Hpending). simpl.
    by rewrite app_nil_r.
  - rewrite (waitForReady_pending _ _ _ _ Hpending). simpl.
    by rewrite app_nil_r.
Qed.

(** Once the poller has returned, no later event changes what it did. *)
Theorem waitForReady_returned events r more :
  (waitForReady events client name).2 = Some r →
  waitForReady (events ++ more) client name = waitForReady events client name.
Proof.
  induction events as [|ev events IH]; simpl; [done|].
  destruct ev as [canceled| |[obj|e]]; simpl; try done.
  - destruct (parseKnativeStatus obj) as [[isReady msg] url].
    destruct isReady; [done|]. simpl. intros Hr. by rewrite IH.
  - destruct (IsNotFound e); [|done]. simpl. intros Hr. by rewrite IH.
Qed.

Lemma waitForReady_only_reads events :
  Forall (λ c, c = get) (waitForReady events client name).1.
Proof.
  induction events as [|ev events IH]; simpl; [done|].
  destruct ev as [canceled| |[obj|e]]; simpl; try done.
  - destruct (parseKnativeStatus obj) as [[isReady msg] url].
    destruct isReady; simpl; by repeat constructor.
  - destruct (IsNotFound e); simpl; by repeat constructor.
Qed.

(** The poller only ever reads the one resource it was given, and at most
    once per event. *)
Theorem waitForReady_calls events :
  Forall (λ c, c = get) (waitForReady events client name).1
  ∧ length (waitForReady events client name).1 ≤ length events.
Proof.
  induction events as [|ev events [IH1 IH2]]; simpl; [by split|].
  destruct ev as [canceled| |[obj|e]]; simpl.
  - split; [done|lia].
  - split; [done|lia].
  - destruct (parseKnativeStatus obj) as [[isReady msg] url].
    destruct isReady; simpl.
    + split; [by repeat constructor|lia].
    + split; [by constructor|lia].
  - destruct (IsNotFound e); simpl.
    + split; [by constructor|lia].
    + split; [by repeat constructor|lia].
Qed.
End poller_more.

Lemma waitForReady_ready_witness :
  waitForReady
    ([Tick (Err (ApiError true "services f not found")); Tick (Ok failed_revision)]
       ++ Tick (Ok late_ready) :: [TimeoutFired])
    ("services", "ns") "f"
  = ((waitForReady
        [Tick (Err (ApiError true "services f not found"));
         Tick (Ok failed_revision)] ("services", "ns") "f").1
       ++ [Get "services" "ns" "f"],
     Some (Ok (live_url late_ready))).
Proof.
  apply (waitForReady_ready ("services", "ns") "f"); reflexivity.
Defined.

Lemma waitForReady_not_ready_witness :
  waitForReady ([] ++ Tick (Ok failed_revision) :: [TimeoutFired])
    ("services", "ns") "f"
  = ((waitForReady [] ("services", "ns") "f").1
       ++ Get "services" "ns" "f"
          :: (waitForReady [TimeoutFired] ("services", "ns") "f").1,
     (waitForReady [TimeoutFired] ("services", "ns") "f").2).
Proof.
  apply (waitForReady_not_ready ("services", "ns") "f"); reflexivity.
Defined.

Lemma waitForReady_interrupted_witness :
  let events := [Tick (Ok failed_revision)] in
  waitForReady (events ++ TimeoutFired :: [Tick (Ok late_ready)])
    ("services", "ns") "f"
  = ((waitForReady events ("services", "ns") "f").1, Some (Err timeout_error))
  ∧ ∀ canceled,
      waitForReady (events ++ CtxDone canceled :: [Tick (Ok late_ready)])
        ("services", "ns") "f"
      = ((waitForReady events ("services", "ns") "f").1,
         Some (Err (ContextError canceled)))
      ∧ ContextError canceled ≠ timeout_error.
Proof.
  apply (waitForReady_interrupted ("services", "ns") "f"). reflexivity.
Defined.

Lemma waitForReady_returned_witness :
  waitForReady ([Tick (Ok late_ready)] ++ [Tick (Ok failed_revision); TimeoutFired])
    ("services", "ns") "f"
  = waitForReady [Tick (Ok late_ready)] ("services", "ns") "f".
Proof.
  apply (waitForReady_returned ("services", "ns") "f" _ (Ok "http://x")).
  reflexivity.
Defined.

(** ** Configuration loading and dispatch *)

(** [LoadEnv] succeeds exactly when the name and the namespace are set and
    the image is set or the subcommand is not spelled [deploy]; what it
    returns is then the environment as read. *)
Theorem LoadEnv_Ok_iff env args cfg :
  Main.LoadEnv env args = Ok cfg ↔
  cfg = Main.read_env env
  ∧ Getenv env "FUNCTION_NAME" ≠ ""
  ∧ Getenv env "FUNCTION_NAMESPACE" ≠ ""
  ∧ (Getenv env "FUNCTION_IMAGE" ≠ "" ∨ args !! 1 ≠ Some "deploy").
Proof.
  unfold Main.LoadEnv. simpl.
  destruct (decide (Getenv env "FUNCTION_NAME" = "")) as [Hn|Hn];
    [by split; [|intros (_ & ? & _)]|].
  destruct (decide (Getenv env "FUNCTION_NAMESPACE" = "")) as [Hns|Hns];
    [by split; [|intros (_ & _ & ? & _)]|].
  destruct (bool_decide (Getenv env "FUNCTION_IMAGE" = "")) eqn:Hi; simpl.
  - apply bool_decide_eq_true in Hi.
    destruct (bool_decide (args !! 1 = Some "deploy")) eqn:Ha.
    + apply bool_decide_eq_true in Ha.
      rewrite bool_decide_eq_true_2 by (by apply lookup_lt_Some in Ha). simpl.
      split; [done|]. by intros (_ & _ & _ & [?|?]).
    + apply bool_decide_eq_false in Ha. rewrite andb_false_r.
      split; [intros [= <-]|intros [-> _]]; auto.
  - apply bool_decide_eq_false in Hi.
    split; [intros [= <-]|intros [-> _]]; auto.
Qed.

(** The checks of [LoadEnv] come in a fixed order: a missing name is
    reported whatever else is missing, and a missing namespace is reported
    before a missing image. *)
Theorem LoadEnv_error_order env args :
  (Getenv env "FUNCTION_NAME" = "" →
   Main.LoadEnv env args = Err (ErrorString "FUNCTION_NAME is required"))
  ∧ (Getenv env "FUNCTION_NAME" ≠ "" →
     Getenv env "FUNCTION_NAMESPACE" = "" →
     Main.LoadEnv env args = Err (ErrorString "FUNCTION_NAMESPACE is required")).
Proof.
  unfold Main.LoadEnv. simpl. split.
  - intros Hn. by rewrite decide_True.
  - intros Hn Hns. rewrite decide_False by done. by rewrite decide_True.
Qed.

(** The tests of [TestLoadEnv] that do not depend on the command line of
    the test binary. *)
Example LoadEnv_tests :
  Main.LoadEnv ∅ ["cmd"; "deploy"] = Err (ErrorString "FUNCTION_NAME is required")
  ∧ Main.LoadEnv {[ "FUNCTION_NAME" := "myfunc" ]} ["cmd"; "deploy"]
    = Err (ErrorString "FUNCTION_NAMESPACE is required")
  ∧ Main.LoadEnv
      {[ "FUNCTION_NAME" := "myfunc"; "FUNCTION_NAMESPACE" := "myns" ]}
      ["cmd"; "deploy"]
    = Err (ErrorString "FUNCTION_IMAGE is required for deploy")
  ∧ Main.FunctionImage <$>
      (match Main.LoadEnv
               {[ "FUNCTION_NAME" := "myfunc"; "FUNCTION_NAMESPACE" := "myns";
                  "FUNCTION_IMAGE" := "myimg" ]} ["cmd"; "deploy"] with
       | Ok cfg => Some cfg
       | Err _ => None
       end)
    = Some "myimg".
Proof. repeat split; vm_compute; reflexivity. Qed.

(** The two copies of [LoadEnv] accept the same environments and report
    the same error on the others. *)
Theorem LoadEnv_copies_agree env args :
  match Main.LoadEnv env args, Part000.LoadEnv env args with
  | Ok cfg, Ok cfg' =>
      Main.FunctionName cfg = Part000.FunctionName cfg'
      ∧ Main.FunctionNamespace cfg = Part000.FunctionNamespace cfg'
      ∧ Main.FunctionImage cfg = Part000.FunctionImage cfg'
      ∧ Main.FunctionGeneration cfg = Part000.FunctionGeneration cfg'
      ∧ Main.ForwardedEnvVars cfg = Part000.ForwardedEnvVars cfg'
  | Err e, Err e' => e = e'
  | _, _ => False
  end.
Proof.
  unfold Main.LoadEnv, Part000.LoadEnv. simpl.
  destruct (decide (Getenv env "FUNCTION_NAME" = "")); [done|].
  destruct (decide (Getenv env "FUNCTION_NAMESPACE" = "")); [done|].
  by destruct (bool_decide (Getenv env "FUNCTION_IMAGE" = "")
               && bool_decide (1 < length args)
               && bool_decide (args !! 1 = Some "deploy")).
Qed.

(** A subcommand other than [deploy] and [observe] is refused by name, with
    exit status 1, before the environment is read or any call is made. *)
Theorem main_unknown_command env args w cmd :
  args !! 1 = Some cmd →
  cmd ≠ "deploy" →
  cmd ≠ "observe" →
  Main.main env args w
  = ([], Some (Err (ErrorString ("unknown command: " +:+ cmd))))
  ∧ exit_status (Main.main env args w) = Some 1%Z.
Proof.
  intros Hargs Hd Ho.
  assert (Main.main env args w
          = ([], Some (Err (ErrorString ("unknown command: " +:+ cmd)))))
    as Hmain.
  { unfold Main.main. rewrite Hargs. simpl.
    rewrite decide_False by done. by rewrite decide_False by done. }
  by rewrite Hmain.
Qed.

Lemma main_unknown_command_witness :
  Main.main ∅ ["knative-deployer"; "remove"] offline_world
  = ([], Some (Err (ErrorString ("unknown command: " +:+ "remove"))))
  ∧ exit_status (Main.main ∅ ["knative-deployer"; "remove"] offline_world)
    = Some 1%Z.
Proof.
  apply (main_unknown_command ∅ ["knative-deployer"; "remove"] offline_world
           "remove"); [reflexivity|discriminate|discriminate].
Defined.

(** [main] runs the deploy flow for [deploy] and for a command line
    without a subcommand, and the observe flow for [observe]. *)
Theorem main_dispatch env args w :
  (args !! 1 = None ∨ args !! 1 = Some "deploy" →
   Main.main env args w = Main.runDeploy env args w)
  ∧ (args !! 1 = Some "observe" →
     Main.main env args w = Main.runObserve env args w).
Proof.
  unfold Main.main. split.
  - by intros [-> | ->].
  - by intros ->.
Qed.

(** A configuration error is returned as it is by both flows, and no call
    is made before it. *)
Theorem config_error_before_calls env args w e :
  Main.LoadEnv env args = Err e →
  Main.runDeploy env args w = ([], Some (Err e))
  ∧ Main.runObserve env args w = ([], Some (Err e)).
Proof.
  intros Hload. unfold Main.runDeploy, Main.runObserve. by rewrite Hload.
Qed.

Lemma config_error_before_calls_witness :
  let e := ErrorString "FUNCTION_NAME is required" in
  Main.runDeploy ∅ ["knative-deployer"] deploying_world = ([], Some (Err e))
  ∧ Main.runObserve ∅ ["knative-deployer"] deploying_world = ([], Some (Err e)).
Proof.
  apply (config_error_before_calls ∅ ["knative-deployer"] deploying_world).
  vm_compute. reflexivity.
Defined.

(** ** The deploy flow *)

Lemma filter_all_same (P : call → bool) g (cs : list call) :
  Forall (λ c, c = g) cs → P g = false → filter (λ c, P c = true) cs = [].
Proof.
  intros Hcs Hg. induction Hcs as [|c cs -> _ IH]; [done|].
  rewrite filter_cons, decide_False; [done|]. by rewrite Hg.
Qed.

(** [runDeploy] step by step, once the configuration is loaded. *)
Lemma runDeploy_steps env args w cfg :
  Main.LoadEnv env args = Ok cfg →
  Main.runDeploy env args w =
    match in_cluster_config w with
    | Some e =>
        ([InClusterConfig],
         Some (Err (WrapError "failed to get in-cluster config" e)))
    | None =>
    match new_for_config w with
    | Some e =>
        ([InClusterConfig; NewForConfig],
         Some (Err (WrapError "failed to create dynamic client" e)))
    | None =>
    match apply_service w with
    | Some e =>
        (deploy_prelude env cfg,
         Some (Err (WrapError "failed to apply knative service" e)))
    | None =>
    let polled :=
      waitForReady (poll_events w) ("services", Main.FunctionNamespace cfg)
        (Main.FunctionName cfg) in
    match polled.2 with
    | None => (deploy_prelude env cfg ++ polled.1, None)
    | Some (Err e) =>
        (deploy_prelude env cfg ++ polled.1,
         Some (Err (WrapError "failed to wait for service readiness" e)))
    | Some (Ok url) =>
        (deploy_prelude env cfg ++ polled.1
           ++ [WriteFile (termination_log_path env) [("url", VString url)]],
         Some match write_file w with
              | Some e =>
                  Err (WrapError "failed to write termination message" e)
              | None => Ok ()
              end)
    end end end end.
Proof.
  intros Hload. unfold Main.runDeploy. rewrite Hload, bind_lift_Ok.
  unfold getDynamicClient, mbind, flow_bind.
  destruct (in_cluster_config w); [done|].
  destruct (new_for_config w); [done|].
  destruct (apply_service w); [done|].
  destruct (waitForReady (poll_events w)
              ("services", Main.FunctionNamespace cfg) (Main.FunctionName cfg))
    as [gets [[url|e]|]]; [|done..].
  unfold writeTerminationMessage, termination_log_path.
  by destruct (write_file w).
Qed.

(** A deploy that goes through: the service is applied once, polled until
    it is ready, and the url it reported is what the termination message
    carries, at the configured path or else at [/dev/termination-log]. *)
Theorem runDeploy_success env args w cfg gets url :
  Main.LoadEnv env args = Ok cfg →
  in_cluster_config w = None →
  new_for_config w = None →
  apply_service w = None →
  waitForReady (poll_events w) ("services", Main.FunctionNamespace cfg)
    (Main.FunctionName cfg) = (gets, Some (Ok url)) →
  write_file w = None →
  Main.runDeploy env args w
  = (deploy_prelude env cfg ++ gets
       ++ [WriteFile (termination_log_path env) [("url", VString url)]],
     Some (Ok ()))
  ∧ exit_status (Main.runDeploy env args w) = Some 0%Z.
Proof.
  intros Hload H1 H2 H3 Hpoll H4.
  rewrite (runDeploy_steps _ _ _ _ Hload), H1, H2, H3, Hpoll, H4. done.
Qed.

Lemma runDeploy_success_witness :
  let env := <[ "FUNCTION_IMAGE" := "img" ]> identity_env in
  let args := ["knative-deployer"; "deploy"] in
  Main.runDeploy env args deploying_world
  = (deploy_prelude env (Main.read_env env)
       ++ [Get "services" "ns" "f"; Get "services" "ns" "f"]
       ++ [WriteFile (termination_log_path env) [("url", VString "http://x")]],
     Some (Ok ()))
  ∧ exit_status (Main.runDeploy env args deploying_world) = Some 0%Z.
Proof.
  intros env args.
  apply (runDeploy_success env args deploying_world (Main.read_env env));
    vm_compute; reflexivity.
Defined.

(** A deploy whose wait for readiness fails, on the timeout or on a read
    error, fails with that error wrapped; the service stays applied and no
    termination message is written. *)
Theorem runDeploy_wait_failure env args w cfg gets e :
  Main.LoadEnv env args = Ok cfg →
  in_cluster_config w = None →
  new_for_config w = None →
  apply_service w = None →
  waitForReady (poll_events w) ("services", Main.FunctionNamespace cfg)
    (Main.FunctionName cfg) = (gets, Some (Err e)) →
  Main.runDeploy env args w
  = (deploy_prelude env cfg ++ gets,
     Some (Err (WrapError "failed to wait for service readiness" e)))
  ∧ filter (λ c, is_write_file c = true) (Main.runDeploy env args w).1 = []
  ∧ length (filter (λ c, is_apply c = true) (Main.runDeploy env args w).1) = 1.
Proof.
  intros Hload H1 H2 H3 Hpoll.
  assert (Main.runDeploy env args w
          = (deploy_prelude env cfg ++ gets,
             Some (Err (WrapError "failed to wait for service readiness" e))))
    as Hrun.
  { by rewrite (runDeploy_steps _ _ _ _ Hload), H1, H2, H3, Hpoll. }
  pose proof (waitForReady_only_reads ("services", Main.FunctionNamespace cfg)
                (Main.FunctionName cfg) (poll_events w)) as Hgets.
  rewrite Hpoll in Hgets. rewrite Hrun. cbn [fst] in *.
  split; [done|]. rewrite !filter_app.
  rewrite (filter_all_same is_write_file _ _ Hgets) by done.
  rewrite (filter_all_same is_apply _ _ Hgets) by done.
  split; reflexivity.
Qed.

Lemma runDeploy_wait_failure_witness :
  let env := <[ "FUNCTION_IMAGE" := "img" ]> identity_env in
  let args := ["knative-deployer"; "deploy"] in
  Main.runDeploy env args timing_out_world
  = (deploy_prelude env (Main.read_env env)
       ++ [Get "services" "ns" "f"; Get "services" "ns" "f"],
     Some (Err (WrapError "failed to wait for service readiness" timeout_error)))
  ∧ filter (λ c, is_write_file c = true)
      (Main.runDeploy env args timing_out_world).1 = []
  ∧ length (filter (λ c, is_apply c = true)
              (Main.runDeploy env args timing_out_world).1) = 1.
Proof.
  intros env args.
  apply (runDeploy_wait_failure env args timing_out_world (Main.read_env env));
    vm_compute; reflexivity.
Defined.

(** A deploy stops at the first call that fails: without a client nothing
    is applied, and when the apply fails nothing is polled or written. *)
Theorem runDeploy_stops_at_failure env args w cfg :
  Main.LoadEnv env args = Ok cfg →
  (∀ e, in_cluster_config w = Some e →
        Main.runDeploy env args w
        = ([InClusterConfig],
           Some (Err (WrapError "failed to get in-cluster config" e))))
  ∧ (∀ e, in_cluster_config w = None → new_for_config w = Some e →
          Main.runDeploy env args w
          = ([InClusterConfig; NewForConfig],
             Some (Err (WrapError "failed to create dynamic client" e))))
  ∧ (∀ e, in_cluster_config w = None → new_for_config w = None →
          apply_service w = Some e →
          Main.runDeploy env args w
          = (deploy_prelude env cfg,
             Some (Err (WrapError "failed to apply knative service" e)))).
Proof.
  intros Hload. rewrite (runDeploy_steps _ _ _ _ Hload). repeat split.
  - by intros e ->.
  - by intros e -> ->.
  - by intros e -> -> ->.
Qed.

Lemma runDeploy_stops_at_failure_witness :
  Main.runDeploy identity_env ["knative-deployer"] offline_world
  = ([InClusterConfig],
     Some (Err (WrapError "failed to get in-cluster config"
                  (ErrorString "unable to load in-cluster configuration")))).
Proof.
  pose proof (runDeploy_stops_at_failure identity_env ["knative-deployer"]
                offline_world (Main.read_env identity_env)
                ltac:(vm_compute; reflexivity)) as [H _].
  apply H. reflexivity.
Defined.

(** The deploy flow never patches the status of the tracked function, and
    it writes the termination message at most once, as its last call. *)
Theorem runDeploy_never_patches env args w :
  patches_issued (Main.runDeploy env args w) = []
  ∧ ∀ path data,
      WriteFile path data ∈ (Main.runDeploy env args w).1 →
      ∃ cs, (Main.runDeploy env args w).1 = cs ++ [WriteFile path data]
            ∧ filter (λ c, is_write_file c = true) cs = [].
Proof.
  destruct (Main.LoadEnv env args) as [cfg|e] eqn:Hload.
  2:{ assert (Main.runDeploy env args w = ([], Some (Err e))) as ->
        by (unfold Main.runDeploy; by rewrite Hload).
      split; [done|]. intros path data Hin. by apply elem_of_nil in Hin. }
  rewrite (runDeploy_steps _ _ _ _ Hload). unfold patches_issued.
  pose proof (waitForReady_only_reads ("services", Main.FunctionNamespace cfg)
                (Main.FunctionName cfg) (poll_events w)) as Hgets.
  set (polled := waitForReady _ _ _) in *.
  assert (filter (λ c, is_write_file c = true) polled.1 = []) as Hw
    by (by apply (filter_all_same _ _ _ Hgets)).
  assert (filter (λ c, is_status_patch c = true) polled.1 = []) as Hp
    by (by apply (filter_all_same _ _ _ Hgets)).
  assert (∀ path data, WriteFile path data ∉ polled.1) as Hnw.
  { intros path data Hin. rewrite Forall_forall in Hgets.
    by specialize (Hgets _ Hin). }
  assert (∀ path data, WriteFile path data ∉ deploy_prelude env cfg) as Hnp.
  { intros path data Hin. unfold deploy_prelude in Hin.
    repeat (apply elem_of_cons in Hin as [?|Hin]; [done|]).
    by apply elem_of_nil in Hin. }
  assert (filter (λ c, is_status_patch c = true) (deploy_prelude env cfg) = [])
    as Hpp by reflexivity.
  assert (filter (λ c, is_write_file c = true) (deploy_prelude env cfg) = [])
    as Hwp by reflexivity.
  destruct (in_cluster_config w).
  { split; [done|]. intros ?? Hin.
    repeat (apply elem_of_cons in Hin as [?|Hin]; [done|]).
    by apply elem_of_nil in Hin. }
  destruct (new_for_config w).
  { split; [done|]. intros ?? Hin.
    repeat (apply elem_of_cons in Hin as [?|Hin]; [done|]).
    by apply elem_of_nil in Hin. }
  destruct (apply_service w).
  { split; [done|]. intros ?? Hin. by apply Hnp in Hin. }
  cbn zeta. destruct polled.2 as [[url|e]|]; cbn [fst].
  - split.
    + by rewrite !filter_app, Hpp, Hp.
    + intros path data Hin.
      exists (deploy_prelude env cfg ++ polled.1).
      assert (WriteFile path data
              = WriteFile (termination_log_path env) [("url", VString url)])
        as ->.
      { apply elem_of_app in Hin as [Hin|Hin]; [by apply Hnp in Hin|].
        apply elem_of_app in Hin as [Hin|Hin]; [by apply Hnw in Hin|].
        by apply list_elem_of_singleton in Hin. }
      split; [by rewrite <- app_assoc|]. by rewrite filter_app, Hwp, Hw.
  - split.
    + by rewrite !filter_app, Hpp, Hp.
    + intros path data Hin.
      apply elem_of_app in Hin as [Hin|Hin];
        [by apply Hnp in Hin|by apply Hnw in Hin].
  - split.
    + by rewrite !filter_app, Hpp, Hp.
    + intros path data Hin.
      apply elem_of_app in Hin as [Hin|Hin];
        [by apply Hnp in Hin|by apply Hnw in Hin].
Qed.

(** ** The observe flow *)

(** [runObserve] step by step, once the configuration is loaded. *)
Lemma runObserve_steps env args w cfg :
  Main.LoadEnv env args = Ok cfg →
  let get_ks :=
    Get "services" (Main.FunctionNamespace cfg) (Main.FunctionName cfg) in
  let get_kf :=
    Get "kdexfunctions" (Main.FunctionNamespace cfg) (Main.FunctionName cfg) in
  Main.runObserve env args w =
    match in_cluster_config w with
    | Some e =>
        ([InClusterConfig],
         Some (Err (WrapError "failed to get in-cluster config" e)))
    | None =>
    match new_for_config w with
    | Some e =>
        ([InClusterConfig; NewForConfig],
         Some (Err (WrapError "failed to create dynamic client" e)))
    | None =>
    match get_service w with
    | Err e =>
        ([InClusterConfig; NewForConfig; get_ks],
         Some (if IsNotFound e then Ok ()
               else Err (WrapError "failed to get knative service" e)))
    | Ok ksObj =>
    match get_function w with
    | Err e =>
        ([InClusterConfig; NewForConfig; get_ks; get_kf],
         Some (Err (WrapError "failed to get kdex function" e)))
    | Ok kfObj =>
    match Main.observe cfg ksObj kfObj with
    | None => ([InClusterConfig; NewForConfig; get_ks; get_kf], Some (Ok ()))
    | Some patch =>
        ([InClusterConfig; NewForConfig; get_ks; get_kf;
          MergePatchStatus "kdexfunctions" (Main.FunctionNamespace cfg)
            (Main.FunctionName cfg) patch "kdex-knative-observer"],
         Some match patch_function w with
              | Some e =>
                  Err (WrapError "failed to patch kdex function status" e)
              | None => Ok ()
              end)
    end end end end end.
Proof.
  intros Hload get_ks get_kf. unfold Main.runObserve.
  rewrite Hload, bind_lift_Ok. unfold getDynamicClient, mbind, flow_bind.
  destruct (in_cluster_config w); [done|].
  destruct (new_for_config w); [done|].
  destruct (get_service w) as [ksObj|e].
  2:{ by destruct (IsNotFound e). }
  destruct (get_function w) as [kfObj|e]; [|done].
  destruct (Main.observe cfg ksObj kfObj) as [patch|] eqn:Hobs.
  - cbn. rewrite Hobs. by destruct (patch_function w).
  - cbn. by rewrite Hobs.
Qed.

(** When the live service is not there, the observation ends well after
    that one read: the tracked function is neither read nor patched. *)
Theorem runObserve_service_not_found env args w cfg e :
  Main.LoadEnv env args = Ok cfg →
  in_cluster_config w = None →
  new_for_config w = None →
  get_service w = Err e →
  IsNotFound e = true →
  Main.runObserve env args w
  = ([InClusterConfig; NewForConfig;
      Get "services" (Main.FunctionNamespace cfg) (Main.FunctionName cfg)],
     Some (Ok ()))
  ∧ exit_status (Main.runObserve env args w) = Some 0%Z.
Proof.
  intros Hload H1 H2 Hks He.
  rewrite (runObserve_steps _ _ _ _ Hload), H1, H2, Hks, He. done.
Qed.

Lemma runObserve_service_not_found_witness :
  let args := ["knative-deployer"; "observe"] in
  Main.runObserve identity_env args timing_out_world
  = ([InClusterConfig; NewForConfig;
      Get "services" (Main.FunctionNamespace (Main.read_env identity_env))
        (Main.FunctionName (Main.read_env identity_env))],
     Some (Ok ()))
  ∧ exit_status (Main.runObserve identity_env args timing_out_world) = Some 0%Z.
Proof.
  intros args.
  apply (runObserve_service_not_found identity_env args timing_out_world
           (Main.read_env identity_env)
           (ApiError true "services f not found"));
    vm_compute; reflexivity.
Defined.

(** Every other failed read is fatal: of the live service when the error is
    not a not-found, and of the tracked function whatever the error is, a
    not-found included.  No patch is issued then. *)
Theorem runObserve_read_failure env args w cfg :
  Main.LoadEnv env args = Ok cfg →
  in_cluster_config w = None →
  new_for_config w = None →
  (∀ e, get_service w = Err e → IsNotFound e = false →
        (Main.runObserve env args w).2
        = Some (Err (WrapError "failed to get knative service" e))
        ∧ patches_issued (Main.runObserve env args w) = [])
  ∧ (∀ ksObj e, get_service w = Ok ksObj → get_function w = Err e →
        (Main.runObserve env args w).2
        = Some (Err (WrapError "failed to get kdex function" e))
        ∧ patches_issued (Main.runObserve env args w) = []).
Proof.
  intros Hload H1 H2. rewrite (runObserve_steps _ _ _ _ Hload), H1, H2.
  split.
  - intros e -> ->. done.
  - intros ksObj e -> ->. done.
Qed.

Lemma runObserve_read_failure_witness :
  let args := ["knative-deployer"; "observe"] in
  let w := {|
    in_cluster_config := None; new_for_config := None; apply_service := None;
    poll_events := []; write_file := None;
    get_service := Ok late_ready;
    get_function := Err (ApiError true "kdexfunctions f not found");
    patch_function := None |} in
  (Main.runObserve identity_env args w).2
  = Some (Err (WrapError "failed to get kdex function"
                 (ApiError true "kdexfunctions f not found")))
  ∧ patches_issued (Main.runObserve identity_env args w) = [].
Proof.
  intros args w.
  pose proof (runObserve_read_failure identity_env args w
                (Main.read_env identity_env)
                ltac:(vm_compute; reflexivity) eq_refl eq_refl) as [_ H].
  apply (H late_ready); reflexivity.
Defined.

(** In every world a run of the observe flow issues at most one status
    patch, addressed to the tracked function of the configuration under
    the observer's field manager, and it never applies a service or writes
    a file. *)
Theorem runObserve_writes env args w :
  length (patches_issued (Main.runObserve env args w)) ≤ 1
  ∧ (∀ c, c ∈ patches_issued (Main.runObserve env args w) →
       ∃ cfg ksObj kfObj patch,
         Main.LoadEnv env args = Ok cfg
         ∧ get_service w = Ok ksObj
         ∧ get_function w = Ok kfObj
         ∧ Main.observe cfg ksObj kfObj = Some patch
         ∧ c = MergePatchStatus "kdexfunctions" (Main.FunctionNamespace cfg)
                 (Main.FunctionName cfg) patch "kdex-knative-observer")
  ∧ filter (λ c, is_apply c = true) (Main.runObserve env args w).1 = []
  ∧ filter (λ c, is_write_file c = true) (Main.runObserve env args w).1 = [].
Proof.
  destruct (Main.LoadEnv env args) as [cfg|e] eqn:Hload.
  2:{ assert (Main.runObserve env args w = ([], Some (Err e))) as ->
        by (unfold Main.runObserve; by rewrite Hload).
      repeat split; try done. simpl. lia.
      intros c Hin. by apply elem_of_nil in Hin. }
  rewrite runObserve_patches, Hload.
  rewrite (runObserve_steps _ _ _ _ Hload).
  destruct (in_cluster_config w).
  { repeat split; try done. simpl; lia.
    intros c Hin. by apply elem_of_nil in Hin. }
  destruct (new_for_config w).
  { repeat split; try done. simpl; lia.
    intros c Hin. by apply elem_of_nil in Hin. }
  destruct (get_service w) as [ksObj|e].
  2:{ repeat split; try done. simpl; lia.
      intros c Hin. by apply elem_of_nil in Hin. }
  destruct (get_function w) as [kfObj|e].
  2:{ repeat split; try done. simpl; lia.
      intros c Hin. by apply elem_of_nil in Hin. }
  destruct (Main.observe cfg ksObj kfObj) as [patch|] eqn:Hobs.
  - repeat split; try done.
    intros c Hin. apply list_elem_of_singleton in Hin as ->.
    by exists cfg, ksObj, kfObj, patch.
  - repeat split; try done. simpl; lia.
    intros c Hin. by apply elem_of_nil in Hin.
Qed.

(** ** The transition logic as a decision table *)

(** An update is decided in exactly two situations: the live object is
    ready and the tracked state is not [Ready] or the tracked url is not
    the live one, or the live object is not ready and the tracked state is
    [Ready].  Without an update the state is left as it is and there is no
    detail. *)
Theorem reconcile_needsUpdate_iff cfg isReady msg url state cur :
  ((Main.reconcile cfg isReady msg url state cur).1.1 = true ↔
   (isReady = true ∧ (state ≠ "Ready" ∨ cur ≠ url))
   ∨ (isReady = false ∧ state = "Ready"))
  ∧ ((Main.reconcile cfg isReady msg url state cur).1.1 = false →
     Main.reconcile cfg isReady msg url state cur = (false, state, "")).
Proof.
  destruct isReady.
  - rewrite reconcile_ready.
    destruct (decide (state ≠ "Ready")) as [Hs|Hs]; simpl.
    + split; [|done]. split; [intros _; left; auto|done].
    + apply dec_stable in Hs. split.
      * rewrite bool_decide_eq_true. split.
        -- intros Hu. left. auto.
        -- intros [[_ [?|?]]|[? _]]; done.
      * by intros ->.
  - rewrite reconcile_not_ready.
    destruct (decide (state = "Ready")) as [Hs|Hs]; simpl.
    + split; [|done]. split; [intros _; right; auto|done].
    + split; [|done]. split; [done|]. intros [[? _]|[_ ?]]; done.
Qed.

(** A pass asks for no patch exactly when the tracked object already
    agrees with the live one: ready, tracked as [Ready] with the live url;
    or not ready and not tracked as [Ready]. *)
Theorem observe_None_iff cfg ksObj kfObj :
  Main.observe cfg ksObj kfObj = None ↔
  ((parseKnativeStatus ksObj).1.1 = true
   ∧ currentState kfObj = "Ready" ∧ currentURL kfObj = live_url ksObj)
  ∨ ((parseKnativeStatus ksObj).1.1 = false ∧ currentState kfObj ≠ "Ready").
Proof.
  unfold Main.observe. pose proof (parseKnativeStatus_url ksObj) as Hurl.
  destruct (parseKnativeStatus ksObj) as [[isReady msg] url].
  simpl in Hurl. subst url. simpl.
  destruct isReady.
  - rewrite reconcile_ready.
    destruct (decide (currentState kfObj ≠ "Ready")) as [Hs|Hs].
    + split; [done|]. intros [(_ & ? & _)|[? _]]; done.
    + apply dec_stable in Hs.
      destruct (decide (currentURL kfObj = live_url ksObj)) as [Hu|Hu].
      * rewrite bool_decide_eq_false_2 by (intros H; by apply H).
        split; [intros _; left; auto|done].
      * rewrite bool_decide_eq_true_2 by done.
        split; [done|]. intros [(_ & _ & ?)|[? _]]; done.
  - rewrite reconcile_not_ready.
    destruct (decide (currentState kfObj = "Ready")) as [Hs|Hs].
    + split; [done|]. intros [(? & _)|[_ ?]]; done.
    + split; [intros _; right; auto|done].
Qed.

(** Whatever patch a pass asks for carries the state that matches the live
    object, [Ready] or [FunctionDeployed], and the live url; it carries a
    detail exactly when the tracked state changes. *)
Theorem observe_patch_shape cfg ksObj kfObj patch :
  Main.observe cfg ksObj kfObj = Some patch →
  let ready := (parseKnativeStatus ksObj).1.1 in
  let changes := bool_decide (currentState kfObj ≠ "Ready") || negb ready in
  ∃ detail,
    patch = status_patch (if ready then "Ready" else "FunctionDeployed")
              (live_url ksObj) detail
    ∧ (detail ≠ "" ↔ changes = true)
    ∧ (changes = true →
       detail = (if ready then "Ready: " else "NotReady: ")
                  +:+ live_url ksObj +:+ Main.FunctionBasePath cfg).
Proof.
  unfold Main.observe. pose proof (parseKnativeStatus_url ksObj) as Hurl.
  destruct (parseKnativeStatus ksObj) as [[isReady msg] url].
  simpl in Hurl. subst url. simpl.
  destruct isReady.
  - rewrite reconcile_ready.
    destruct (decide (currentState kfObj ≠ "Ready")) as [Hs|Hs].
    + intros [= <-]. rewrite bool_decide_eq_true_2 by done. simpl.
      eexists. split; [done|]. by split.
    + apply dec_stable in Hs.
      destruct (bool_decide (currentURL kfObj ≠ live_url ksObj)); [|done].
      intros [= <-]. rewrite Hs.
      rewrite bool_decide_eq_false_2 by (intros H; by apply H). simpl.
      exists "". split; [done|]. by split.
  - rewrite reconcile_not_ready.
    destruct (decide (currentState kfObj = "Ready")) as [Hs|Hs]; [|done].
    intros [= <-]. rewrite orb_true_r.
    eexists. split; [done|]. by split.
Qed.

Lemma observe_patch_shape_witness :
  let cfg := Main.read_env base_path_env in
  let ready := (parseKnativeStatus late_ready).1.1 in
  let changes := bool_decide (currentState tracked_unset ≠ "Ready") || negb ready in
  ∃ detail,
    status_patch "Ready" "http://x" "Ready: http://x/api"
    = status_patch (if ready then "Ready" else "FunctionDeployed")
        (live_url late_ready) detail
    ∧ (detail ≠ "" ↔ changes = true)
    ∧ (changes = true →
       detail = (if ready then "Ready: " else "NotReady: ")
                  +:+ live_url late_ready +:+ Main.FunctionBasePath cfg).
Proof.
  apply (observe_patch_shape (Main.read_env base_path_env) late_ready
           tracked_unset).
  vm_compute. reflexivity.
Defined.

(** The two copies of the transition logic always agree on whether to
    update and on the new state; their details agree on the way to [Ready]
    when no base path is configured, and differ on the way down, where the
    first gives the url and the second the reason. *)
Theorem reconcile_copies_agree cfg isReady msg url state cur :
  (Main.reconcile cfg isReady msg url state cur).1
  = (Part000.reconcile isReady msg url state cur).1
  ∧ (Main.FunctionBasePath cfg = "" → isReady = true →
     Main.reconcile cfg isReady msg url state cur
     = Part000.reconcile isReady msg url state cur)
  ∧ (isReady = false → state = "Ready" →
     (Main.reconcile cfg isReady msg url state cur).2
     = "NotReady: " +:+ url +:+ Main.FunctionBasePath cfg
     ∧ (Part000.reconcile isReady msg url state cur).2 = "NotReady: " +:+ msg).
Proof.
  unfold Main.reconcile, Part000.reconcile. split; [|split].
  - destruct isReady.
    + by destruct (decide (state ≠ "Ready")), (decide (cur ≠ url)).
    + by destruct (decide (state = "Ready")).
  - intros Hbase ->. rewrite Hbase, string_app_empty_r. done.
  - by intros -> ->.
Qed.

(** ** The desired-state builder, beyond the annotations *)



(** Setting the annotations leaves the rest of the service document as it
    was written: its kind, the name and namespace the request is addressed
    to, the same two labels on the service and on the revision template,
    and the one container with the configured image and the forwarded
    environment. *)
Theorem desired_service_identity env cfg :
  let doc := VMap (Main.desired_service env cfg) in
  let labels :=
    VMap [("kdex.dev/function", VString (Main.FunctionName cfg));
          ("kdex.dev/generation", VString (Main.FunctionGeneration cfg))] in
  NestedFieldNoCopy doc ["apiVersion"] = Found (VString "serving.knative.dev/v1")
  ∧ NestedFieldNoCopy doc ["kind"] = Found (VString "Service")
  ∧ NestedFieldNoCopy doc ["metadata"; "name"]
    = Found (VString (Main.FunctionName cfg))
  ∧ NestedFieldNoCopy doc ["metadata"; "namespace"]
    = Found (VString (Main.FunctionNamespace cfg))
  ∧ NestedFieldNoCopy doc ["metadata"; "labels"] = Found labels
  ∧ NestedFieldNoCopy doc ["spec"; "template"; "metadata"; "labels"] = Found labels
  ∧ NestedFieldNoCopy doc ["spec"; "template"; "spec"; "containers"]
    = Found (VSlice [VMap [("image", VString (Main.FunctionImage cfg));
                           ("env",
                             VSlice (containerEnv env (Main.ForwardedEnvVars cfg)))]]).
Proof. repeat split; reflexivity. Qed.

(** ** What a status patch does to the tracked object *)

(** Merged into the tracked object, a status patch changes the state and
    the url and nothing else: every other member of the object and every
    other member of its status stays, and so does the old detail when the
    patch carries none. *)
Theorem status_patch_is_partial kfObj status newState url newDetail :
  NestedMap kfObj "status" = Found status →
  ∃ status',
    NestedMap (patched kfObj (status_patch newState url newDetail)) "status"
    = Found status'
    ∧ (∀ k, k ≠ "state" → k ≠ "url" → (k = "detail" → newDetail = "") →
            map_lookup k status' = map_lookup k status)
    ∧ (∀ k, k ≠ "status" →
            map_lookup k (patched kfObj (status_patch newState url newDetail))
            = map_lookup k kfObj).
Proof.
  intros Hstatus.
  assert (map_index kfObj "status" = VMap status) as Hindex.
  { unfold NestedMap in Hstatus. unfold map_index.
    destruct (map_lookup "status" kfObj) as [[]|]; by simplify_eq/=. }
  unfold patched, status_patch.
  destruct (decide (newDetail ≠ "")) as [Hd|Hd]; simpl; rewrite Hindex;
    eexists; (split; [unfold NestedMap; by rewrite map_lookup_store_eq|]);
    (split; [|intros k Hk; by rewrite map_lookup_store_ne]).
  - intros k Hk1 Hk2 Hk3.
    assert (k ≠ "detail") by (intros ->; by apply Hd, Hk3).
    by rewrite !map_lookup_store_ne.
  - intros k Hk1 Hk2 _. by rewrite !map_lookup_store_ne.
Qed.

Lemma status_patch_is_partial_witness :
  ∃ status',
    NestedMap (patched tracked_ready (status_patch "Ready" "http://y" ""))
      "status" = Found status'
    ∧ (∀ k, k ≠ "state" → k ≠ "url" → (k = "detail" → "" = "") →
            map_lookup k status'
            = map_lookup k [("state", VString "Ready"); ("url", VString "http://x");
                            ("detail", VString "Ready: http://x")])
    ∧ (∀ k, k ≠ "status" →
            map_lookup k (patched tracked_ready (status_patch "Ready" "http://y" ""))
            = map_lookup k tracked_ready).
Proof.
  apply (status_patch_is_partial tracked_ready). reflexivity.
Defined.

(** An update that only follows a changed url leaves a stale detail: the
    tracked detail still names the old url. *)
Example url_drift_keeps_detail :
  let live := [("status",
                 VMap [("url", VString "http://y");
                       ("conditions",
                         VSlice [VMap [("type", VString "Ready");
                                       ("status", VString "True")]])])] in
  ∃ patch,
    Main.observe (Main.read_env identity_env) live tracked_ready = Some patch
    ∧ currentURL (patched tracked_ready patch) = "http://y"
    ∧ NestedFieldNoCopy (VMap (patched tracked_ready patch)) ["status"; "detail"]
      = Found (VString "Ready: http://x").
Proof. eexists. repeat split; vm_compute; reflexivity. Qed.
